(** * awesome-python3-webapp: the ORM layer, the request-handler adapter and
      response coercion, embedded in Rocq

    The development follows the source modules:
    - [Py]      : the Python values, exceptions and the state/error monad the
                  embedding is written in;
    - [Orm]     : www/orm.py  (select, execute, Field, ModelMetaclass, Model);
    - [Web]     : the aiohttp responses and requests the web modules handle;
    - [Coroweb] : www/coroweb.py (signature inspection, RequestHandler);
    - [App]     : www/app.py (response_factory).
    The properties come after the definitions, module by module.
    Logging calls have no effect on any value the program computes and are
    left out. *)

From Stdlib Require Import ZArith Lia Ascii.
From Stdlib Require String.
From stdpp Require Import gmap strings list fin_maps.

#[local] Set Warnings "-register-all".
#[local] Open Scope Z_scope.

(* ===================================================================== *)
(** ** Python values, exceptions, the monad *)
(* ===================================================================== *)

Module Py.

(** The Python objects that flow through the three modules.  [bool] is a
    subclass of [int] in Python, which [isinstance_int] reflects.  A float is
    kept as mantissa and binary exponent; no claim computes with floats.
    [PFunc ret] is a callable taking no argument and returning [ret];
    [PObj c] is any other object, of class [c]. *)
Inductive pyval :=
| PNone
| PBool (b : bool)
| PInt (z : Z)
| PFloat (m e : Z)
| PStr (s : string)
| PBytes (bs : list Byte.byte)
| PTuple (xs : list pyval)
| PList (xs : list pyval)
| PDict (d : gmap string pyval)
| PFunc (ret : pyval)
| PObj (c : string).

(** [bool(v)], the truth value Python's [if v:], [not v] and [v or w] use. *)
Definition truthy (v : pyval) : bool :=
  match v with
  | PNone => false
  | PBool b => b
  | PInt z => negb (Z.eqb z 0)
  | PFloat m _ => negb (Z.eqb m 0)
  | PStr s => negb (String.eqb s "")
  | PBytes bs => negb (Nat.eqb (length bs) 0)
  | PTuple xs | PList xs => negb (Nat.eqb (length xs) 0)
  | PDict d => negb (Nat.eqb (size d) 0)
  | PFunc _ | PObj _ => true
  end.

(** [v is None] *)
Definition is_None (v : pyval) : bool :=
  match v with PNone => true | _ => false end.

(** [isinstance(v, int)]: ints and bools. *)
Definition isinstance_int (v : pyval) : bool :=
  match v with PInt _ | PBool _ => true | _ => false end.

(** The integer an [int] instance denotes ([True] is 1, [False] is 0). *)
Definition int_value (v : pyval) : Z :=
  match v with
  | PInt z => z
  | PBool true => 1
  | _ => 0
  end.

(** [callable(v)] *)
Definition callable (v : pyval) : bool :=
  match v with PFunc _ => true | _ => false end.

(** [v()] for a callable [v]. *)
Definition call0 (v : pyval) : pyval :=
  match v with PFunc ret => ret | _ => PNone end.

(** Truth value of a [str]-or-[None] argument. *)
Definition truthy_str (s : option string) : bool :=
  match s with Some s => negb (String.eqb s "") | None => false end.

(** Text the program builds with [str(v)] and ['...%s' % v] on arbitrary
    objects.  [str] is a Python builtin, not code of the repository, so its
    result is kept symbolic: [SStr v] stands for [str(v)]. *)
Inductive pystr :=
| SLit (s : string)
| SStr (v : pyval)
| SCat (a b : pystr).

(** ['%s%s' % (prefix, v)] for a literal prefix. *)
Definition fmt (prefix : string) (v : pyval) : pystr := SCat (SLit prefix) (SStr v).

Inductive exn :=
| RuntimeError (msg : string)
| ValueError (msg : pystr)
| KeyError (key : string)
| IndexError
| TypeError (msg : string)
| APIError (error data message : pyval)
| DriverError (what : string).

Inductive result (A : Type) :=
| Ok (a : A)
| Raise (e : exn).
Arguments Ok {A} a.
Arguments Raise {A} e.

(** State and exceptions: a computation over a state [S] ends in a value or
    in a raised exception, and in both cases leaves a state behind. *)
Definition M (S A : Type) : Type := S -> result A * S.

Definition ret {S A} (a : A) : M S A := fun s => (Ok a, s).

Definition raise {S A} (e : exn) : M S A := fun s => (Raise e, s).

Definition bind {S A B} (m : M S A) (k : A -> M S B) : M S B :=
  fun s =>
    match m s with
    | (Ok a, s') => k a s'
    | (Raise e, s') => (Raise e, s')
    end.

(** [try: body  except BaseException: handler] *)
Definition try_except {S A} (body : M S A) (handler : exn -> M S A) : M S A :=
  fun s =>
    match body s with
    | (Ok a, s') => (Ok a, s')
    | (Raise e, s') => handler e s'
    end.

(** [async with <enter/exit> : body].  The exit runs whether the body
    returned or raised; an exception of the body then goes on to the caller,
    unless the exit itself raises. *)
Definition async_with {S A} (enter exit : M S unit) (body : M S A) : M S A :=
  fun s =>
    match enter s with
    | (Raise e, s1) => (Raise e, s1)
    | (Ok _, s1) =>
        match body s1 with
        | (r, s2) =>
            match exit s2 with
            | (Raise e', s3) => (Raise e', s3)
            | (Ok _, s3) => (r, s3)
            end
        end
    end.

Definition when {S} (c : bool) (m : M S unit) : M S unit :=
  if c then m else ret tt.

(** [list(map(f, xs))] for an effectful [f]: left to right. *)
Fixpoint mapM {S A B} (f : A -> M S B) (xs : list A) : M S (list B) :=
  match xs with
  | [] => ret []
  | x :: xs' => bind (f x) (fun y => bind (mapM f xs') (fun ys => ret (y :: ys)))
  end.

(** Run a computation on one component of a pair of states. *)
Definition on_fst {S T A} (m : M S A) : M (S * T) A :=
  fun st => match m (fst st) with (r, s') => (r, (s', snd st)) end.

Definition on_snd {S T A} (m : M T A) : M (S * T) A :=
  fun st => match m (snd st) with (r, t') => (r, (fst st, t')) end.

Declare Scope py_scope.
Delimit Scope py_scope with py.
Notation "x <- m ;; k" := (bind m (fun x => k))
  (at level 100, m at next level, right associativity) : py_scope.
Notation "m ;;; k" := (bind m (fun _ => k))
  (at level 100, right associativity) : py_scope.

(** [sep.join(parts)] *)
Definition join (sep : string) (parts : list string) : string :=
  String.concat sep parts.

(** [s.replace('?', '%s')] *)
Fixpoint replace_qmark (s : string) : string :=
  match s with
  | EmptyString => EmptyString
  | String c rest =>
      if Ascii.eqb c "?"%char then String "%"%char (String "s"%char (replace_qmark rest))
      else String c (replace_qmark rest)
  end.

(** [s.lower()] on ASCII text. *)
Definition lower_ascii (c : Ascii.ascii) : Ascii.ascii :=
  let n := Ascii.nat_of_ascii c in
  if (Nat.leb 65 n && Nat.leb n 90)%bool then Ascii.ascii_of_nat (n + 32)%nat else c.

Fixpoint lower (s : string) : string :=
  match s with
  | EmptyString => EmptyString
  | String c rest => String (lower_ascii c) (lower rest)
  end.

(** [s.startswith(p)] *)
Definition startswith (s p : string) : bool := String.prefix p s.

(** [s[n:]] *)
Fixpoint drop_str (n : nat) (s : string) : string :=
  match n, s with
  | O, _ => s
  | S n', String _ rest => drop_str n' rest
  | S _, EmptyString => EmptyString
  end.

End Py.

(* ===================================================================== *)
(** ** www/orm.py *)
(* ===================================================================== *)

Module Orm.
Import Py.
#[local] Open Scope py_scope.

(** *** The connection pool and the driver, as orm.py uses them

    aiomysql is not code of the repository.  Every operation orm.py awaits
    on the pool, a connection or a cursor is an [event]; the program state
    records the events in the order they were attempted.  What the driver
    answers is given by a [Pool], as a function of the events so far, so
    that nothing is assumed about the database: whether an operation raises,
    [cur.rowcount], the rows of the result set ([rows], which is what
    [cur.fetchall()] returns), and what [cur.fetchmany(size)] returns of a
    result set. *)

Abbreviation row := (gmap string pyval).

Inductive event :=
| EvAcquire                                   (* __pool.get().__aenter__  *)
| EvRelease                                   (* __pool.get().__aexit__   *)
| EvBegin                                     (* conn.begin()             *)
| EvCommit                                    (* conn.commit()            *)
| EvRollback                                  (* conn.rollback()          *)
| EvCursor                                    (* conn.cursor().__aenter__ *)
| EvCursorClose                               (* conn.cursor().__aexit__  *)
| EvExecute (sql : string) (args : list pyval) (* cur.execute(sql, args)   *)
| EvFetchMany (size : Z)                      (* cur.fetchmany(size)      *)
| EvFetchAll.                                 (* cur.fetchall()           *)

Record Pool := {
  raises : list event -> event -> option exn;
  rowcount : list event -> Z;
  rows : list event -> list row;
  fetchmany : list row -> Z -> list row
}.

(** The state orm.py runs in: the Python lists that are shared by reference
    between a caller and [findAll] (a store from references to contents),
    and the driver events so far. *)
Record World := {
  lists : gmap nat (list pyval);
  trace : list event
}.

Definition record_event (ev : event) (w : World) : World :=
  {| lists := lists w; trace := trace w ++ [ev] |}.

(** [[]]: a new list object. *)
Definition new_list : M World nat :=
  fun w =>
    let l := fresh (dom (lists w)) in
    (Ok l, {| lists := <[l := []]> (lists w); trace := trace w |}).

(** [l.append(v)] and [l.extend(vs)]: in place. *)
Definition list_extend (l : nat) (vs : list pyval) : M World unit :=
  fun w => (Ok tt, {| lists := alter (fun xs => xs ++ vs) l (lists w); trace := trace w |}).

Definition list_append (l : nat) (v : pyval) : M World unit :=
  list_extend l [v].

(** The contents of the list [l] refers to. *)
Definition list_contents (l : nat) : M World (list pyval) :=
  fun w => (Ok (default [] (lists w !! l)), w).

Section DataAccess.

(** [global __pool] *)
Variable __pool : Pool.

(** One awaited driver operation: it is recorded, and raises or answers
    according to the events before it. *)
Definition driver {A} (ev : event) (answer : list event -> A) : M World A :=
  fun w =>
    match raises __pool (trace w) ev with
    | Some e => (Raise e, record_event ev w)
    | None => (Ok (answer (trace w)), record_event ev w)
    end.

Definition driver_ (ev : event) : M World unit := driver ev (fun _ => tt).

(** [args or ()] *)
Definition args_or_empty (args : option (list pyval)) : list pyval :=
  match args with
  | Some (x :: xs) => x :: xs
  | _ => []
  end.

(** [if size:] for [size] an int or [None]. *)
Definition truthy_size (size : option Z) : bool :=
  match size with
  | Some z => negb (Z.eqb z 0)
  | None => false
  end.

(** orm.py, lines 31-42.  [args] is the list as the driver reads it when
    the statement is executed. *)
Definition select (sql : string) (args : option (list pyval)) (size : option Z)
  : M World (list row) :=
  async_with (driver_ EvAcquire) (driver_ EvRelease)
    (rs <- async_with (driver_ EvCursor) (driver_ EvCursorClose)
             (driver_ (EvExecute (replace_qmark sql) (args_or_empty args)) ;;;
              if truthy_size size
              then driver (EvFetchMany (default 0 size))
                          (fun h => fetchmany __pool (rows __pool h) (default 0 size))
              else driver EvFetchAll (rows __pool)) ;;
     ret rs).

(** orm.py, lines 45-60. *)
Definition execute (sql : string) (args : option (list pyval)) (autocommit : bool)
  : M World Z :=
  async_with (driver_ EvAcquire) (driver_ EvRelease)
    (when (negb autocommit) (driver_ EvBegin) ;;;
     affected <- try_except
       (affected <- async_with (driver_ EvCursor) (driver_ EvCursorClose)
                      (driver_ (EvExecute (replace_qmark sql) (args_or_empty args)) ;;;
                       fun w => (Ok (rowcount __pool (trace w)), w)) ;;
        when (negb autocommit) (driver_ EvCommit) ;;;
        ret affected)
       (fun e =>
          when (negb autocommit) (driver_ EvRollback) ;;;
          raise e) ;;
     ret affected).

End DataAccess.

(** orm.py, lines 63-67. *)
Fixpoint question_marks (num : nat) : list string :=
  match num with
  | O => []
  | S n => question_marks n ++ ["?"]
  end.

Definition create_args_string (num : nat) : string :=
  join ", " (question_marks num).

(** *** Field and its subclasses (orm.py, lines 70-109) *)

Module Field.
Record t := {
  name : option string;
  column_type : string;
  primary_key : bool;
  default : pyval
}.
End Field.

Definition StringField (name : option string) (primary_key : bool)
    (default : pyval) (ddl : string) : Field.t :=
  Field.Build_t name ddl primary_key default.

Definition BooleanField (name : option string) (default : pyval) : Field.t :=
  Field.Build_t name "boolean" false default.

Definition IntegerField (name : option string) (primary_key : bool)
    (default : pyval) : Field.t :=
  Field.Build_t name "bigint" primary_key default.

Definition FloatField (name : option string) (primary_key : bool)
    (default : pyval) : Field.t :=
  Field.Build_t name "real" primary_key default.

Definition TextField (name : option string) (default : pyval) : Field.t :=
  Field.Build_t name "text" false default.

(** *** ModelMetaclass (orm.py, lines 112-153) *)

(** A value bound in a class body: a [Field] instance or anything else. *)
Inductive attr :=
| AField (f : Field.t)
| AValue (v : pyval).

(** [attrs], the namespace of the class body: the [__table__] entry, a
    string when the class declares one, and the other entries in the order
    of the class body, which is the order [attrs.items()] yields them in. *)
Record class_body := {
  table_decl : option string;
  members : list (string * attr)
}.

(** The class [type.__new__] is handed once the metadata is in [attrs]. *)
Record ModelClass := {
  cls_name : string;
  cls_bases : gmap string pyval;       (* what instances inherit from the bases *)
  cls_members : list (string * attr);  (* the class body, Field entries popped *)
  __mappings__ : gmap string Field.t;
  __table__ : string;
  __primary_key__ : string;
  __fields__ : list string;
  __select__ : string;
  __insert__ : string;
  __update__ : string;
  __delete__ : string
}.

Inductive class :=
| Plain (name : string) (bases : gmap string pyval) (attrs : class_body)
| Mapped (c : ModelClass).

(** The loop of lines 125-136 over [attrs.items()], with the three
    variables it updates; [raise] leaves the loop. *)
Fixpoint scan_attrs (items : list (string * attr))
    (mappings : gmap string Field.t) (fields : list string)
    (primaryKey : option string)
  : result (gmap string Field.t * list string * option string) :=
  match items with
  | [] => Ok (mappings, fields, primaryKey)
  | (k, AField v) :: rest =>
      let mappings := <[k := v]> mappings in
      if Field.primary_key v then
        if truthy_str primaryKey
        then Raise (RuntimeError ("Duplicate primary key for field: " +:+ k))
        else scan_attrs rest mappings fields (Some k)
      else scan_attrs rest mappings (fields ++ [k]) primaryKey
  | (_, AValue _) :: rest => scan_attrs rest mappings fields primaryKey
  end.

(** [lambda f: '`%s`' % f] *)
Definition escaped (f : string) : string := "`" +:+ f +:+ "`".

(** [lambda f: '`%s`=?' % (mappings.get(f).name or f)];
    [mappings.get(f)] is a Field for every [f] of [fields]. *)
Definition set_item (mappings : gmap string Field.t) (f : string) : string :=
  let column :=
    match mappings !! f with
    | Some fld => if truthy_str (Field.name fld) then default f (Field.name fld) else f
    | None => f
    end in
  "`" +:+ column +:+ "`=?".

Module ModelMetaclass.

Definition __new__ (name : string) (bases : gmap string pyval) (attrs : class_body)
  : result class :=
  if String.eqb name "Model" then Ok (Plain name bases attrs)
  else
    let tableName :=
      if truthy_str (table_decl attrs) then default name (table_decl attrs) else name in
    match scan_attrs (members attrs) ∅ [] None with
    | Raise e => Raise e
    | Ok (mappings, fields, primaryKey) =>
        if negb (truthy_str primaryKey) then Raise (RuntimeError "Primary key not found.")
        else
          let primaryKey := default "" primaryKey in
          let rest := filter (fun kv => mappings !! kv.1 = None) (members attrs) in
          let escaped_fields := map escaped fields in
          Ok (Mapped {|
            cls_name := name;
            cls_bases := bases;
            cls_members := rest;
            __mappings__ := mappings;
            __table__ := tableName;
            __primary_key__ := primaryKey;
            __fields__ := fields;
            __select__ :=
              "select `" +:+ primaryKey +:+ "`, " +:+ join ", " escaped_fields
              +:+ " from `" +:+ tableName +:+ "`";
            __insert__ :=
              "insert into `" +:+ tableName +:+ "` (" +:+ join ", " escaped_fields
              +:+ ", `" +:+ primaryKey +:+ "`) values ("
              +:+ create_args_string (length escaped_fields + 1) +:+ ")";
            __update__ :=
              "update `" +:+ tableName +:+ "` set "
              +:+ join ", " (map (set_item mappings) fields)
              +:+ " where `" +:+ primaryKey +:+ "`=?";
            __delete__ :=
              "delete from `" +:+ tableName +:+ "` where `" +:+ primaryKey +:+ "`=?"
          |})
    end.

End ModelMetaclass.

(** *** Model (orm.py, lines 156-254) *)

(** A Model instance is a dict; its class carries the metadata. *)
Record Instance := {
  type_of : ModelClass;
  items : gmap string pyval
}.

(** The metadata entries of the class namespace, as attribute lookup on an
    instance finds them. *)
Definition metadata (c : ModelClass) : list (string * pyval) :=
  [ ("__mappings__", PObj "dict");
    ("__table__", PStr (__table__ c));
    ("__primary_key__", PStr (__primary_key__ c));
    ("__fields__", PList (PStr <$> __fields__ c));
    ("__select__", PStr (__select__ c));
    ("__insert__", PStr (__insert__ c));
    ("__update__", PStr (__update__ c));
    ("__delete__", PStr (__delete__ c)) ].

Definition attr_value (a : attr) : pyval :=
  match a with
  | AField _ => PObj "Field"
  | AValue v => v
  end.

Fixpoint assoc {A} (key : string) (l : list (string * A)) : option A :=
  match l with
  | [] => None
  | (k, v) :: rest => if String.eqb k key then Some v else assoc key rest
  end.

(** The namespace of the class [type.__new__] makes of the attributes it
    is handed (line 153): [__qualname__] is taken out of it, it becomes the
    qualified name of the class and is no attribute an instance finds. *)
Definition namespace (c : ModelClass) : list (string * attr) :=
  filter (fun kv => kv.1 ≠ "__qualname__") (cls_members c).

(** Ordinary attribute lookup on an instance: the class namespace, then the
    bases.  (Writes go to the dict, see [setattr], so an instance has no
    attribute of its own.) *)
Definition class_getattr (c : ModelClass) (key : string) : option pyval :=
  match assoc key (metadata c) with
  | Some v => Some v
  | None =>
      match assoc key (namespace c) with
      | Some a => Some (attr_value a)
      | None => cls_bases c !! key
      end
  end.

(** [getattr(self, key, dflt)]: ordinary lookup first; [Model.__getattr__]
    (lines 161-165) is only asked when that fails, reads [self[key]], and
    turns the KeyError into the AttributeError that makes [getattr] answer
    [dflt]. *)
Definition getattr (self : Instance) (key : string) (dflt : pyval) : pyval :=
  match class_getattr (type_of self) key with
  | Some v => v
  | None => default dflt (items self !! key)
  end.

(** [Model.__setattr__] (lines 167-168): [self[key] = value]. *)
Definition setattr (key : string) (value : pyval) : M Instance unit :=
  fun self => (Ok tt, {| type_of := type_of self; items := <[key := value]> (items self) |}).

(** lines 170-171 *)
Definition getValue (key : string) : M Instance pyval :=
  fun self => (Ok (getattr self key PNone), self).

(** lines 173-181 *)
Definition getValueOrDefault (key : string) : M Instance pyval :=
  fun self =>
    let value := getattr self key PNone in
    if is_None value then
      match __mappings__ (type_of self) !! key with
      | None => (Raise (KeyError key), self)
      | Some field =>
          if negb (is_None (Field.default field)) then
            let value :=
              if callable (Field.default field)
              then call0 (Field.default field)
              else Field.default field in
            (setattr key value ;;; ret value) self
          else (Ok value, self)
      end
    else (Ok value, self).

Section Model.

Variable __pool : Pool.

(** lines 184-209.  [args] is [None] or a reference to the caller's list;
    [limit] is [kw.get('limit', None)], [orderBy] is [kw.get('orderBy', None)]. *)
Definition findAll (cls : ModelClass) (where_ : option string) (args : option nat)
    (orderBy : option string) (limit : pyval) : M World (list Instance) :=
  let sql := [__select__ cls] in
  let sql := if truthy_str where_ then sql ++ ["where"; default "" where_] else sql in
  args <- match args with
          | None => new_list
          | Some l => ret l
          end ;;
  let sql := if truthy_str orderBy then sql ++ ["order by"; default "" orderBy] else sql in
  sql <- (if negb (is_None limit) then
            let sql := sql ++ ["limit"] in
            if isinstance_int limit then
              list_append args limit ;;; ret (sql ++ ["?"])
            else
              match limit with
              | PTuple [a; b] => list_extend args [a; b] ;;; ret (sql ++ ["?, ?"])
              | _ => raise (ValueError (fmt "Invalid limit value: " limit))
              end
          else ret sql) ;;
  contents <- list_contents args ;;
  rs <- select __pool (join " " sql) (Some contents) None ;;
  ret (map (fun r => {| type_of := cls; items := r |}) rs).

(** lines 234-239.  The state is the instance together with the world. *)
Definition save : M (Instance * World) unit :=
  fun st =>
    let cls := type_of (fst st) in
    (args <- on_fst (mapM getValueOrDefault (__fields__ cls)) ;;
     pk <- on_fst (getValueOrDefault (__primary_key__ cls)) ;;
     let args := args ++ [pk] in
     rows <- on_snd (execute __pool (__insert__ cls) (Some args) true) ;;
     ret tt) st.

(** lines 212-222.  [args] is only read here: it is the list as given, or
    [None].  The value returned is [None] or [rs[0]['__num__']]. *)
Definition findNumber (cls : ModelClass) (selectField : string) (where_ : option string)
    (args : option (list pyval)) : M World pyval :=
  let sql := ["select " +:+ selectField +:+ " __num__ from `" +:+ __table__ cls +:+ "`"] in
  let sql := if truthy_str where_ then sql ++ ["where"; default "" where_] else sql in
  rs <- select __pool (join " " sql) args (Some 1) ;;
  match rs with
  | [] => ret PNone
  | r :: _ =>
      match r !! "__num__" with
      | Some v => ret v
      | None => raise (KeyError "__num__")
      end
  end.

(** lines 225-231.  The result is [None] or an instance. *)
Definition find (cls : ModelClass) (pk : pyval) : M World (option Instance) :=
  rs <- select __pool (__select__ cls +:+ " where `" +:+ __primary_key__ cls +:+ "`=?")
               (Some [pk]) (Some 1) ;;
  match rs with
  | [] => ret None
  | r :: _ => ret (Some {| type_of := cls; items := r |})
  end.

(** lines 242-247 *)
Definition update : M (Instance * World) unit :=
  fun st =>
    let cls := type_of (fst st) in
    (args <- on_fst (mapM getValue (__fields__ cls)) ;;
     pk <- on_fst (getValue (__primary_key__ cls)) ;;
     let args := args ++ [pk] in
     rows <- on_snd (execute __pool (__update__ cls) (Some args) true) ;;
     ret tt) st.

(** lines 250-254 *)
Definition remove : M (Instance * World) unit :=
  fun st =>
    let cls := type_of (fst st) in
    (pk <- on_fst (getValue (__primary_key__ cls)) ;;
     let args := [pk] in
     rows <- on_snd (execute __pool (__delete__ cls) (Some args) true) ;;
     ret tt) st.

End Model.

End Orm.

(* ===================================================================== *)
(** ** aiohttp.web responses, as the two web modules build them *)
(* ===================================================================== *)

Module Web.
Import Py.

(** The payload of a response: a bytes object, or a text encoded as
    UTF-8. *)
Inductive body :=
| Bytes (bs : list Byte.byte)               (* a bytes object     *)
| Utf8 (t : pystr).                         (* t.encode('utf-8')  *)

Record Response := {
  status : Z;
  resp_body : option body;
  text : option pystr;
  content_type : option string;   (* [None]: left to aiohttp *)
  location : option string
}.

(** [web.Response(body=b)], [web.Response(status=s)],
    [web.Response(status=s, text=t)] *)
Definition Response_body (b : body) : Response :=
  {| status := 200; resp_body := Some b; text := None; content_type := None; location := None |}.

Definition Response_status (s : Z) : Response :=
  {| status := s; resp_body := None; text := None; content_type := None; location := None |}.

Definition Response_status_text (s : Z) (t : pystr) : Response :=
  {| status := s; resp_body := None; text := Some t; content_type := None; location := None |}.

(** [resp.content_type = ct] *)
Definition set_content_type (ct : string) (r : Response) : Response :=
  {| status := status r; resp_body := resp_body r; text := text r;
     content_type := Some ct; location := location r |}.

(** [web.HTTPBadRequest(text=t)] and [web.HTTPFound(loc)] *)
Definition HTTPBadRequest (t : string) : Response :=
  {| status := 400; resp_body := None; text := Some (SLit t); content_type := None; location := None |}.

Definition HTTPFound (loc : string) : Response :=
  {| status := 302; resp_body := None; text := None; content_type := None; location := Some loc |}.

(** [web.HTTPFound(loc)] for any [loc]: the constructor refuses an empty
    location with a ValueError. *)
Definition HTTPFound_checked (loc : string) : result Response :=
  if String.eqb loc ""
  then Raise (ValueError (SLit "HTTP redirects need a location to redirect to."))
  else Ok (HTTPFound loc).

(** What a handler hands back: a response object or any other value. *)
Inductive retval :=
| RResponse (r : Response)
| RValue (v : pyval).

(** The request, as far as the two modules read it.  [json] and [post] are
    the outcomes of awaiting [request.json()] and [request.post()]. *)
Record Request := {
  method : string;
  req_content_type : string;
  json : result pyval;
  post : result (gmap string pyval);
  query_string : string;
  match_info : gmap string pyval;
  __user__ : pyval
}.

End Web.

(* ===================================================================== *)
(** ** www/coroweb.py *)
(* ===================================================================== *)

Module Coroweb.
Import Py Web.

(** *** Signatures ([inspect.signature(fn).parameters]) *)

Inductive kind :=
| POSITIONAL_ONLY
| POSITIONAL_OR_KEYWORD
| VAR_POSITIONAL
| KEYWORD_ONLY
| VAR_KEYWORD.

Definition kind_eqb (a b : kind) : bool :=
  match a, b with
  | POSITIONAL_ONLY, POSITIONAL_ONLY
  | POSITIONAL_OR_KEYWORD, POSITIONAL_OR_KEYWORD
  | VAR_POSITIONAL, VAR_POSITIONAL
  | KEYWORD_ONLY, KEYWORD_ONLY
  | VAR_KEYWORD, VAR_KEYWORD => true
  | _, _ => false
  end.

(** One declared parameter; [p_default = None] is [inspect.Parameter.empty]. *)
Record Param := {
  p_name : string;
  p_kind : kind;
  p_default : option pyval
}.

(** An argument of the call [fn( **kw)]: a value taken from the request
    data, or the request object itself. *)
Inductive kwarg :=
| KVal (v : pyval)
| KRequest (r : Request).

(** A view function: its name, its declared parameters in order, and what
    awaiting [fn( **kw)] gives. *)
Record Func := {
  __name__ : string;
  parameters : list Param;
  await_call : gmap string kwarg -> result retval
}.

(** lines 54-61 *)
Definition get_required_kw_args (fn : Func) : list string :=
  p_name <$> filter (fun p => kind_eqb (p_kind p) KEYWORD_ONLY = true ∧ p_default p = None)
                    (parameters fn).

(** lines 64-70 *)
Definition get_named_kw_args (fn : Func) : list string :=
  p_name <$> filter (fun p => kind_eqb (p_kind p) KEYWORD_ONLY = true) (parameters fn).

(** lines 73-77 *)
Definition has_named_kw_args (fn : Func) : bool :=
  existsb (fun p => kind_eqb (p_kind p) KEYWORD_ONLY) (parameters fn).

(** lines 80-84 *)
Definition has_var_kw_arg (fn : Func) : bool :=
  existsb (fun p => kind_eqb (p_kind p) VAR_KEYWORD) (parameters fn).

(** The loop of lines 91-97, with its variable [found]. *)
Fixpoint request_arg_loop (fn : Func) (params : list Param) (found : bool) : result bool :=
  match params with
  | [] => Ok found
  | p :: rest =>
      if String.eqb (p_name p) "request" then request_arg_loop fn rest true
      else if found
              && (negb (kind_eqb (p_kind p) VAR_POSITIONAL)
                  && negb (kind_eqb (p_kind p) KEYWORD_ONLY)
                  && negb (kind_eqb (p_kind p) VAR_KEYWORD))
      then Raise (ValueError
             (SCat (SLit ("request parameter must be the last named parameter in function: "
                          +:+ __name__ fn))
                   (SStr (PObj "Signature"))))
      else request_arg_loop fn rest found
  end.

(** lines 87-98 *)
Definition has_request_arg (fn : Func) : result bool :=
  request_arg_loop fn (parameters fn) false.

(** *** RequestHandler (lines 102-194) *)

Record RequestHandler := {
  _func : Func;
  _has_request_arg : bool;
  _has_var_kw_arg : bool;
  _has_named_kw_args : bool;
  _named_kw_args : list string;
  _required_kw_args : list string
}.

Module RequestHandler_.

(** lines 104-111 *)
Definition __init__ (fn : Func) : result RequestHandler :=
  match has_request_arg fn with
  | Raise e => Raise e
  | Ok found =>
      Ok {| _func := fn;
            _has_request_arg := found;
            _has_var_kw_arg := has_var_kw_arg fn;
            _has_named_kw_args := has_named_kw_args fn;
            _named_kw_args := get_named_kw_args fn;
            _required_kw_args := get_required_kw_args fn |}
  end.

End RequestHandler_.

(** Where [__call__] stands after a stretch of its body: it goes on with a
    value, it has returned, or an awaited call has raised. *)
Inductive step (A : Type) :=
| Continue (a : A)
| Return (r : retval)
| Raised (e : exn).
Arguments Continue {A} a.
Arguments Return {A} r.
Arguments Raised {A} e.

Section Call.

(** [parse.parse_qs(qs, True).items()], from the standard library. *)
Variable parse_qs_items : string -> list (string * list string).

(** lines 153-154: [for k, v in ...: kw[k] = v[0]] *)
Fixpoint take_first_values (qitems : list (string * list string))
    (kw : gmap string kwarg) : step (gmap string kwarg) :=
  match qitems with
  | [] => Continue kw
  | (k, v) :: rest =>
      match v with
      | [] => Raised IndexError
      | v0 :: _ => take_first_values rest (<[k := KVal (PStr v0)]> kw)
      end
  end.

(** lines 115-154: [kw] as read from the body or the query string; [None]
    when nothing was read. *)
Definition read_params (self : RequestHandler) (request : Request)
  : step (option (gmap string kwarg)) :=
  if _has_var_kw_arg self || _has_named_kw_args self then
    let after_post : step (option (gmap string kwarg)) :=
      if String.eqb (method request) "POST" then
        if String.eqb (req_content_type request) "" then
          Return (RResponse (HTTPBadRequest "Missing Content-Type."))
        else
          let ct := lower (req_content_type request) in
          if startswith ct "application/json" then
            match json request with
            | Raise e => Raised e
            | Ok (PDict params) => Continue (Some (KVal <$> params))
            | Ok _ => Return (RResponse (HTTPBadRequest "JSON body must be object."))
            end
          else if startswith ct "application/x-www-form-urlencoded"
                  || startswith ct "multipart/form-data" then
            match post request with
            | Raise e => Raised e
            | Ok params => Continue (Some (KVal <$> params))
            end
          else
            Return (RResponse (HTTPBadRequest
                      ("Unsupported Content-Type: " +:+ req_content_type request)))
      else Continue None in
    match after_post with
    | Continue kw =>
        if String.eqb (method request) "GET" then
          let qs := query_string request in
          if negb (String.eqb qs "") then
            match take_first_values (parse_qs_items qs) ∅ with
            | Continue kw' => Continue (Some kw')
            | Return r => Return r
            | Raised e => Raised e
            end
          else Continue kw
        else Continue kw
    | Return r => Return r
    | Raised e => Raised e
    end
  else Continue None.

(** lines 166-169: keep the declared keyword-only names only. *)
Definition keep_named (names : list string) (kw : gmap string kwarg) : gmap string kwarg :=
  foldl (fun copy name =>
           match kw !! name with
           | Some v => <[name := v]> copy
           | None => copy
           end) ∅ names.

(** lines 173-177: [for k, v in request.match_info.items(): kw[k] = v] *)
Definition merge_match_info (match_info : gmap string pyval) (kw : gmap string kwarg)
  : gmap string kwarg :=
  map_fold (fun k v kw => <[k := KVal v]> kw) kw match_info.

(** lines 115-180: the arguments the view function is to be called with. *)
Definition assemble (self : RequestHandler) (request : Request)
  : step (gmap string kwarg) :=
  match read_params self request with
  | Return r => Return r
  | Raised e => Raised e
  | Continue kw =>
      let kw :=
        match kw with
        | None => KVal <$> match_info request
        | Some kw =>
            let kw :=
              if negb (_has_var_kw_arg self) && _has_named_kw_args self
              then keep_named (_named_kw_args self) kw
              else kw in
            merge_match_info (match_info request) kw
        end in
      let kw :=
        if _has_request_arg self then <["request" := KRequest request]> kw else kw in
      Continue kw
  end.

(** lines 182-186: the first required name that is not in [kw]. *)
Fixpoint first_missing (names : list string) (kw : gmap string kwarg) : option string :=
  match names with
  | [] => None
  | name :: rest =>
      match kw !! name with
      | None => Some name
      | Some _ => first_missing rest kw
      end
  end.

(** What one call of the handler comes to: the arguments the view function
    was called with, if it was called, and what [__call__] returned or
    raised. *)
Record Outcome := {
  invoked : option (gmap string kwarg);
  returned : result retval
}.

(** lines 113-194 *)
Definition __call__ (self : RequestHandler) (request : Request) : Outcome :=
  match assemble self request with
  | Return r => {| invoked := None; returned := Ok r |}
  | Raised e => {| invoked := None; returned := Raise e |}
  | Continue kw =>
      match first_missing (_required_kw_args self) kw with
      | Some name =>
          {| invoked := None;
             returned := Ok (RResponse (HTTPBadRequest ("Missing argument: " +:+ name))) |}
      | None =>
          {| invoked := Some kw;
             returned :=
               match await_call (_func self) kw with
               | Ok r => Ok r
               | Raise (APIError error data message) =>
                   Ok (RValue (PDict {[ "error" := error; "data" := data;
                                        "message" := message ]}))
               | Raise e => Raise e
               end |}
      end
  end.

End Call.

(** *** Routes (lines 17-41 and 208-246) *)

(** A function object with the two attributes the decorators set on it;
    both are [None] on a function that was not decorated. *)
Record FunctionObject := {
  func : Func;
  __method__ : option string;
  __route__ : option string
}.

Module Decorators.

(** lines 17-28: [@get(path)].  The wrapper calls [func] and, through
    [functools.wraps], shows its name and signature. *)
Definition get (path : string) (fn : FunctionObject) : FunctionObject :=
  {| func := func fn; __method__ := Some "GET"; __route__ := Some path |}.

(** lines 30-41: [@post(path)] *)
Definition post (path : string) (fn : FunctionObject) : FunctionObject :=
  {| func := func fn; __method__ := Some "POST"; __route__ := Some path |}.

End Decorators.

(** An entry of [app.router]. *)
Record Route := {
  route_method : string;
  route_path : string;
  route_handler : RequestHandler
}.

(** lines 208-219.  The state is the router of the application. *)
Definition add_route (fn : FunctionObject) : M (list Route) unit :=
  match __route__ fn, __method__ fn with
  | Some path, Some method =>
      fun router =>
        match RequestHandler_.__init__ (func fn) with
        | Raise e => (Raise e, router)
        | Ok handler =>
            (Ok tt,
             router ++ [{| route_method := method; route_path := path;
                           route_handler := handler |}])
        end
  | _, _ =>
      raise (ValueError (SCat (fmt "@get or @post not defined in " (PObj "function"))
                              (SLit ".")))
  end.

(** What a module binds a name to: a callable, or anything else. *)
Inductive module_attr :=
| Callable (fn : FunctionObject)
| NotCallable (v : pyval).

(** lines 222-246, from the imported module on: [mod_] is the module as
    [dir(mod)] and [getattr(mod, attr)] show it. *)
Fixpoint add_routes (mod_ : list (string * module_attr)) : M (list Route) unit :=
  match mod_ with
  | [] => ret tt
  | (attr, obj) :: rest =>
      if startswith attr "_" then add_routes rest
      else
        match obj with
        | Callable fn =>
            if truthy_str (__method__ fn) && truthy_str (__route__ fn)
            then bind (add_route fn) (fun _ => add_routes rest)
            else add_routes rest
        | NotCallable _ => add_routes rest
        end
  end.

End Coroweb.

(* ===================================================================== *)
(** ** www/app.py: response_factory *)
(* ===================================================================== *)

Module App.
Import Py Web.

(** [r >= 100 and r < 600] *)
Definition status_in_range (z : Z) : bool := (100 <=? z) && (z <? 600).

(** The two library calls of the dict branches, with what they return or
    raise: [json.dumps(r, ensure_ascii=False, default=lambda o: o.__dict__)]
    (line 136), which raises when a value is not serialisable and the hook
    finds no [__dict__] on it (a bytes value, say), and
    [app['__templating__'].get_template(template).render( **r)] (line 144),
    which raises when the engine is not set up, the template is not found or
    the rendering fails. *)
Record Library := {
  json_dumps : pyval -> result pystr;
  render : pyval -> gmap string pyval -> result pystr
}.

(** lines 111-158: what the middleware makes of the handler's value [r]. *)
Definition coerce (lib : Library) (request : Request) (r : retval) : result Response :=
  match r with
  | RResponse resp => Ok resp
  | RValue (PBytes bs) =>
      Ok (set_content_type "application/octet-stream" (Response_body (Bytes bs)))
  | RValue (PStr s) =>
      if startswith s "redirect:" then HTTPFound_checked (drop_str 9 s)
      else Ok (set_content_type "text/html;charset=utf-8" (Response_body (Utf8 (SLit s))))
  | RValue (PDict d) =>
      let template := default PNone (d !! "__template__") in
      if is_None template then
        match json_dumps lib (PDict d) with
        | Raise e => Raise e
        | Ok t =>
            Ok (set_content_type "application/json;charset=utf-8" (Response_body (Utf8 t)))
        end
      else
        let d := <["__user__" := __user__ request]> d in
        match render lib template d with
        | Raise e => Raise e
        | Ok t =>
            Ok (set_content_type "text/html;charset=utf-8" (Response_body (Utf8 t)))
        end
  | RValue v =>
      if isinstance_int v && status_in_range (int_value v) then
        Ok (Response_status (int_value v))
      else
        let plain :=
          set_content_type "text/plain;charset=utf-8" (Response_body (Utf8 (SStr v))) in
        match v with
        | PTuple [status_code; message] =>
            if isinstance_int status_code && status_in_range (int_value status_code)
            then Ok (Response_status_text (int_value status_code) (SStr message))
            else Ok plain
        | _ => Ok plain
        end
  end.

(** lines 108-158: [r = await handler(request)], then the coercion. *)
Definition response (lib : Library) (handler : Request -> result retval)
    (request : Request) : result Response :=
  match handler request with
  | Raise e => Raise e
  | Ok r => coerce lib request r
  end.

(** lines 107-159 *)
Definition response_factory (lib : Library) (handler : Request -> result retval)
  : Request -> result Response :=
  response lib handler.

(** *** The middlewares before response_factory, and datetime_filter *)

Module Middleware.

(** The request object as these middlewares use it: the request of
    [Web], its path, the value of the session cookie
    ([request.cookies.get(COOKIE_NAME)]) and the attribute [__data__],
    which a new request does not have. *)
Record Incoming := {
  request : Request;
  path : string;
  session : option string;
  __data__ : option pyval
}.

(** What [cookie2user] returns when it is not [None]: the object and its
    attribute [admin].  (handlers.py and the User model are not among the
    sources.) *)
Record Identity := {
  user : pyval;
  admin : pyval
}.

(** [request.__user__ = u] *)
Definition set_user (u : pyval) (inc : Incoming) : Incoming :=
  {| request :=
       {| method := method (request inc);
          req_content_type := req_content_type (request inc);
          json := json (request inc);
          Web.post := Web.post (request inc);
          query_string := query_string (request inc);
          match_info := match_info (request inc);
          __user__ := u |};
     path := path inc;
     session := session inc;
     __data__ := __data__ inc |}.

(** [request.__data__ = d] *)
Definition set_data (d : pyval) (inc : Incoming) : Incoming :=
  {| request := request inc; path := path inc; session := session inc;
     __data__ := Some d |}.

(** lines 62-67 *)
Definition logger_factory (handler : Incoming -> result retval)
  : Incoming -> result retval :=
  fun inc => handler inc.

(** [if user:] on what [cookie2user] answered: the user that is bound to
    the request, if any. *)
Definition bound_user (who : option Identity) : option Identity :=
  match who with
  | Some u => if truthy (user u) then Some u else None
  | None => None
  end.

(** lines 70-83.  [cookie2user] answers [None] or an object, or raises. *)
Definition auth_factory (cookie2user : string -> result (option Identity))
    (handler : Incoming -> result retval) : Incoming -> result retval :=
  fun inc =>
    let inc := set_user PNone inc in
    let found :=
      if truthy_str (session inc)
      then cookie2user (default "" (session inc))
      else Ok None in
    match found with
    | Raise e => Raise e
    | Ok who =>
        let inc :=
          match bound_user who with
          | Some u => set_user (user u) inc
          | None => inc
          end in
        if startswith (path inc) "/manage/"
           && match bound_user who with
              | Some u => negb (truthy (admin u))
              | None => true
              end
        then Ok (RResponse (HTTPFound "/signin"))
        else handler inc
    end.

(** lines 86-98 *)
Definition data_factory (handler : Incoming -> result retval)
  : Incoming -> result retval :=
  fun inc =>
    if String.eqb (method (request inc)) "POST" then
      if startswith (req_content_type (request inc)) "application/json" then
        match json (request inc) with
        | Raise e => Raise e
        | Ok d => handler (set_data d inc)
        end
      else if startswith (req_content_type (request inc))
                "application/x-www-form-urlencoded" then
        match Web.post (request inc) with
        | Raise e => Raise e
        | Ok d => handler (set_data (PDict d) inc)
        end
      else handler inc
    else handler inc.

(** line 198: [middlewares=[logger_factory, auth_factory, data_factory,
    response_factory]] around the handler the router found; the first of
    the list is the outermost. *)
Definition middlewares (lib : Library) (cookie2user : string -> result (option Identity))
    (handler : Request -> result retval) : Incoming -> result retval :=
  logger_factory
    (auth_factory cookie2user
       (data_factory
          (fun inc =>
             match response_factory lib handler (request inc) with
             | Ok resp => Ok (RResponse resp)
             | Raise e => Raise e
             end))).

(** lines 162-173, from [delta = int(time.time() - t)] on: [delta] is
    that integer, and [dt] is the year, month and day of
    [datetime.fromtimestamp(t)]. *)
Definition datetime_filter (delta : Z) (dt : Z * Z * Z) : pystr :=
  if delta <? 60 then SLit "1分钟前"
  else if delta <? 3600 then SCat (SStr (PInt (delta / 60))) (SLit "分钟前")
  else if delta <? 86400 then SCat (SStr (PInt (delta / 3600))) (SLit "小时前")
  else if delta <? 604800 then SCat (SStr (PInt (delta / 86400))) (SLit "天前")
  else
    let '(year, month, day) := dt in
    SCat (SStr (PInt year))
      (SCat (SLit "年") (SCat (SStr (PInt month))
         (SCat (SLit "月") (SCat (SStr (PInt day)) (SLit "日"))))).

End Middleware.

End App.

(* ===================================================================== *)
(** ** Vocabulary of the properties *)
(* ===================================================================== *)

Module Vocabulary.
Import Py Orm Web Coroweb App.

(** The names a class body binds to a Field marked as primary key, in the
    order of the class body. *)
Definition is_primary (kv : string * attr) : bool :=
  match kv.2 with
  | AField f => Field.primary_key f
  | AValue _ => false
  end.

Definition primary_keys (attrs : class_body) : list string :=
  (filter (fun kv => is_primary kv = true) (members attrs)).*1.

(** The names a class body binds to a Field that is not a primary key. *)
Definition is_plain_field (kv : string * attr) : bool :=
  match kv.2 with
  | AField f => negb (Field.primary_key f)
  | AValue _ => false
  end.

Definition plain_fields (items : list (string * attr)) : list string :=
  (filter (fun kv => is_plain_field kv = true) items).*1.

(** Attribute names are identifiers: never the empty string. *)
Definition named (items : list (string * attr)) : Prop :=
  Forall (fun kv => kv.1 ≠ "") items.

End Vocabulary.

Module DataVocabulary.
Import Py Orm.

(** The event of executing [sql] with [args]. *)
Definition statement (sql : string) (args : option (list pyval)) : event :=
  EvExecute (replace_qmark sql) (args_or_empty args).

(** The driver raises nowhere. *)
Definition quiet (pool : Pool) : Prop :=
  ∀ h ev, raises pool h ev = None.

(** [cur.fetchmany(size)] with a positive size on a cursor nothing was
    fetched from yet: the first [size] rows of the result set (PEP 249). *)
Definition fetchmany_takes (pool : Pool) : Prop :=
  ∀ rs n, 0 < n → fetchmany pool rs n = take (Z.to_nat n) rs.

(** The operations [execute] attempts inside its [try] block. *)
Definition in_try (ev : event) : bool :=
  match ev with
  | EvCursor | EvExecute _ _ | EvCursorClose | EvCommit => true
  | _ => false
  end.

End DataVocabulary.

Module ModelVocabulary.
Import Py Orm.

(** [[cls( **r) for r in rs]] *)
Definition instances (cls : ModelClass) (rs : list (gmap string pyval)) : list Instance :=
  map (fun r => {| type_of := cls; items := r |}) rs.

(** The last two lines of [findAll]: the query, and the instances made of
    its rows. *)
Definition select_instances (pool : Pool) (cls : ModelClass) (sql : string)
    (params : list pyval) : M World (list Instance) :=
  bind (select pool sql (Some params) None) (fun rs => ret (instances cls rs)).

(** The clauses [findAll] has collected when it comes to the limit. *)
Definition clauses (cls : ModelClass) (where_ orderBy : option string) : list string :=
  let sql := [__select__ cls] in
  let sql := if truthy_str where_ then sql ++ ["where"; default "" where_] else sql in
  if truthy_str orderBy then sql ++ ["order by"; default "" orderBy] else sql.

(** The contents of the list [findAll] is given, before the call. *)
Definition contents_before (args : option nat) (w : World) : list pyval :=
  match args with
  | Some l => default [] (lists w !! l)
  | None => []
  end.

(** A reference given to [findAll] refers to a list. *)
Definition live (args : option nat) (w : World) : Prop :=
  ∀ l, args = Some l → is_Some (lists w !! l).

(** What a well-shaped limit adds to the parameters: an int itself, a pair
    its two components. *)
Definition limit_values (limit : pyval) : option (list pyval) :=
  if isinstance_int limit then Some [limit]
  else match limit with
       | PTuple [offset; count] => Some [offset; count]
       | _ => None
       end.

(** A class as the metaclass leaves it: the non-key names and the primary
    key are distinct names, and all of them are in [__mappings__]. *)
Definition well_formed (c : ModelClass) : Prop :=
  NoDup (__fields__ c ++ [__primary_key__ c])
  ∧ ∀ k, k ∈ __fields__ c ++ [__primary_key__ c] → is_Some (__mappings__ c !! k).

(** The value [getValueOrDefault] takes from a Field with a default. *)
Definition default_value (field : Field.t) : pyval :=
  if callable (Field.default field) then call0 (Field.default field)
  else Field.default field.

End ModelVocabulary.

Module WebVocabulary.
Import Py Web Coroweb App.

(** The default case of response coercion: the text of the value, as plain
    text. *)
Definition plain (v : pyval) : Response :=
  set_content_type "text/plain;charset=utf-8" (Response_body (Utf8 (SStr v))).

(** The status a value denotes when it is an integer in [100, 600).
    ([True] and [False] are the integers 1 and 0, outside the range.) *)
Definition status_of (v : pyval) : option Z :=
  match v with
  | PInt z => if decide (100 ≤ z < 600) then Some z else None
  | _ => None
  end.

(** A declared parameter the caller has to give by name. *)
Definition required (p : Param) : Prop :=
  p_kind p = KEYWORD_ONLY ∧ p_default p = None.

(** A parameter that is filled by position. *)
Definition positional (p : Param) : bool :=
  match p_kind p with
  | POSITIONAL_ONLY | POSITIONAL_OR_KEYWORD => true
  | _ => false
  end.

(** A parameter named 'request' is followed, somewhere, by a positional
    parameter of another name. *)
Definition request_misplaced (params : list Param) : Prop :=
  ∃ pre p post q,
    params = pre ++ p :: post
    ∧ p_name p = "request"
    ∧ q ∈ post ∧ p_name q ≠ "request" ∧ positional q = true.

(** The error [has_request_arg] raises. *)
Definition request_error (fn : Func) : exn :=
  ValueError
    (SCat (SLit ("request parameter must be the last named parameter in function: "
                 +:+ __name__ fn))
          (SStr (PObj "Signature"))).

(** The handler reads the body or the query string of a request. *)
Definition reads_parameters (h : RequestHandler) : bool :=
  _has_var_kw_arg h || _has_named_kw_args h.

(** The handler answers 400 with a text and does not call the view
    function. *)
Definition refused (text : string) : Outcome :=
  {| invoked := None; returned := Ok (RResponse (HTTPBadRequest text)) |}.

(** What [add_routes] registers of a module entry: the method, the path
    and the function, for a public name bound to a callable that carries a
    method and a path. *)
Definition routable (entry : string * module_attr) : option (string * string * Func) :=
  match entry with
  | (attr, Callable fn) =>
      if startswith attr "_" then None
      else
        match __method__ fn, __route__ fn with
        | Some method, Some path =>
            if String.eqb method "" || String.eqb path "" then None
            else Some (method, path, func fn)
        | _, _ => None
        end
  | (_, NotCallable _) => None
  end.

Definition route_summary (r : Route) : string * string * Func :=
  (route_method r, route_path r, _func (route_handler r)).

End WebVocabulary.
Module ExtraVocabulary.
Import Py Orm.

(** The operations that open or close a transaction. *)
Definition is_transaction (ev : event) : bool :=
  match ev with
  | EvBegin | EvCommit | EvRollback => true
  | _ => false
  end.

(** The operations that fetch rows. *)
Definition is_fetch (ev : event) : bool :=
  match ev with
  | EvFetchAll | EvFetchMany _ => true
  | _ => false
  end.

(** The number of ['?'] in a text: the placeholders of a statement. *)
Fixpoint count_qmarks (s : string) : nat :=
  match s with
  | EmptyString => 0
  | String c rest => (if Ascii.eqb c "?"%char then 1 else 0) + count_qmarks rest
  end.

(** The column a non-key field is stored under in the canned UPDATE. *)
Definition column_of (c : ModelClass) (f : string) : string :=
  match __mappings__ c !! f with
  | Some fld => if truthy_str (Field.name fld) then default f (Field.name fld) else f
  | None => f
  end.

(** No name that goes into the canned statements holds a ['?']. *)
Definition plain_names (c : ModelClass) : Prop :=
  count_qmarks (__table__ c) = 0%nat
  ∧ count_qmarks (__primary_key__ c) = 0%nat
  ∧ ∀ f, f ∈ __fields__ c →
      count_qmarks f = 0%nat ∧ count_qmarks (column_of c f) = 0%nat.

End ExtraVocabulary.

(* ===================================================================== *)
(** ** Sample inputs *)
(* ===================================================================== *)

Module Samples.
Import Py Orm Web Coroweb.

(** What an instance of a Model subclass inherits: the methods Model
    defines (orm.py, lines 170-254) and the methods of dict. *)
Definition Model_attrs : gmap string pyval :=
  list_to_map
    ((fun n => (n, PObj "function")) <$>
     [ "getValue"; "getValueOrDefault"; "findAll"; "findNumber"; "find";
       "save"; "update"; "remove";
       "clear"; "copy"; "fromkeys"; "get"; "items"; "keys"; "pop"; "popitem";
       "setdefault"; "values" ]).

(** [class User(Model)] with a table name, a string key made by a
    producer, and three other columns, one of them under a column name of
    its own. *)
Definition User_id : Field.t := StringField None true (PFunc (PStr "001")) "varchar(50)".
Definition User_email : Field.t := StringField None false PNone "varchar(50)".
Definition User_admin : Field.t := BooleanField None (PBool false).
Definition User_created_at : Field.t := FloatField (Some "ctime") false (PFunc (PFloat 3 0)).

Definition User_body : class_body :=
  {| table_decl := Some "users";
     members :=
       [ ("__module__", AValue (PStr "models"));
         ("__qualname__", AValue (PStr "User"));
         ("id", AField User_id);
         ("email", AField User_email);
         ("admin", AField User_admin);
         ("created_at", AField User_created_at) ] |}.

Definition User : ModelClass :=
  {| cls_name := "User";
     cls_bases := Model_attrs;
     cls_members :=
       [ ("__module__", AValue (PStr "models")); ("__qualname__", AValue (PStr "User")) ];
     __mappings__ :=
       {[ "id" := User_id; "email" := User_email; "admin" := User_admin;
          "created_at" := User_created_at ]};
     __table__ := "users";
     __primary_key__ := "id";
     __fields__ := [ "email"; "admin"; "created_at" ];
     __select__ := "select `id`, `email`, `admin`, `created_at` from `users`";
     __insert__ :=
       "insert into `users` (`email`, `admin`, `created_at`, `id`) values (?, ?, ?, ?)";
     __update__ := "update `users` set `email`=?, `admin`=?, `ctime`=? where `id`=?";
     __delete__ := "delete from `users` where `id`=?" |}.

(** [class Basket(Model)] with a column named like a method of dict. *)
Definition Basket_id : Field.t := StringField None true PNone "varchar(50)".
Definition Basket_items : Field.t := StringField None false (PStr "nothing") "varchar(50)".

Definition Basket_body : class_body :=
  {| table_decl := None;
     members :=
       [ ("__module__", AValue (PStr "models"));
         ("__qualname__", AValue (PStr "Basket"));
         ("id", AField Basket_id);
         ("items", AField Basket_items) ] |}.

Definition Basket : ModelClass :=
  {| cls_name := "Basket";
     cls_bases := Model_attrs;
     cls_members :=
       [ ("__module__", AValue (PStr "models")); ("__qualname__", AValue (PStr "Basket")) ];
     __mappings__ := {[ "id" := Basket_id; "items" := Basket_items ]};
     __table__ := "Basket";
     __primary_key__ := "id";
     __fields__ := [ "items" ];
     __select__ := "select `id`, `items` from `Basket`";
     __insert__ := "insert into `Basket` (`items`, `id`) values (?, ?)";
     __update__ := "update `Basket` set `items`=? where `id`=?";
     __delete__ := "delete from `Basket` where `id`=?" |}.

(** A class body with no primary key, and one with two. *)
Definition Keyless_body : class_body :=
  {| table_decl := None; members := [ ("email", AField User_email) ] |}.

Definition TwoKeys_body : class_body :=
  {| table_decl := None;
     members :=
       [ ("id", AField User_id);
         ("email", AField User_email);
         ("uid", AField (IntegerField None true (PInt 0))) ] |}.

(** A driver that never raises, reports one affected row, answers every
    query with the same two rows, and whose [fetchmany] takes the first
    rows. *)
Definition two_rows : list (gmap string pyval) :=
  [ {[ "id" := PStr "001" ]}; {[ "id" := PStr "002" ]} ].

Definition two_rows_pool : Pool :=
  {| raises := fun _ _ => None;
     rowcount := fun _ => 1;
     rows := fun _ => two_rows;
     fetchmany := fun rs n => take (Z.to_nat n) rs |}.

(** The same driver, but every statement fails. *)
Definition failing_pool : Pool :=
  {| raises := fun _ ev =>
       match ev with
       | EvExecute _ _ => Some (DriverError "IntegrityError")
       | _ => None
       end;
     rowcount := fun _ => 0;
     rows := fun _ => [];
     fetchmany := fun rs n => take (Z.to_nat n) rs |}.

(** A world with one list, [['a@b.c']], at reference 0. *)
Definition world0 : World :=
  {| lists := {[ 0%nat := [PStr "a@b.c"] ]}; trace := [] |}.

(** A view function declared as [(id, *, name, request)]. *)
Definition view_parameters : list Param :=
  [ {| p_name := "id"; p_kind := POSITIONAL_OR_KEYWORD; p_default := None |};
    {| p_name := "name"; p_kind := KEYWORD_ONLY; p_default := None |};
    {| p_name := "request"; p_kind := KEYWORD_ONLY; p_default := None |} ].

Definition view (body : gmap string kwarg -> result retval) : Func :=
  {| __name__ := "view"; parameters := view_parameters; await_call := body |}.

(** A view that answers with what it was called with. *)
Definition echo (kw : gmap string kwarg) : result retval :=
  Ok (RValue (PDict (omap (fun a => match a with KVal v => Some v | KRequest _ => None end) kw))).

(** No query string is parsed in the samples. *)
Definition no_query (qs : string) : list (string * list string) := [].

(** A JSON POST to a route whose path gave [id]. *)
Definition json_post (body : pyval) (id : pyval) : Request :=
  {| method := "POST";
     req_content_type := "application/json";
     json := Ok body;
     post := Ok ∅;
     query_string := "";
     match_info := {[ "id" := id ]};
     __user__ := PNone |}.

(** A GET without query string. *)
Definition plain_get : Request :=
  {| method := "GET";
     req_content_type := "application/octet-stream";
     json := Raise (ValueError (SLit "Expecting value"));
     post := Ok ∅;
     query_string := "";
     match_info := ∅;
     __user__ := PNone |}.

(** The two library calls of the coercion, for the samples: each gives a
    text that stands for its result. *)
Definition sample_library : App.Library :=
  {| App.json_dumps := fun v => Ok (SCat (SLit "json of ") (SStr v));
     App.render := fun t kw => Ok (SCat (SLit "rendering of ") (SStr t)) |}.

End Samples.

(* ===================================================================== *)
(** ** Properties of www/orm.py: the metaclass *)
(* ===================================================================== *)

Module OrmMeta.
Import Py Orm Vocabulary Samples.

#[local] Arguments truthy_str : simpl never.

Lemma truthy_str_Some k : k ≠ "" → truthy_str (Some k) = true.
Proof.
  intros Hk. unfold truthy_str.
  destruct (String.eqb_spec k "") as [->|_]; [done|reflexivity].
Qed.

(** The loop over the class body, from any state it can be in: the primary
    key found so far ([seen]) together with those still to come decide how
    it ends. *)
Lemma scan_attrs_primary items :
  named items →
  ∀ mappings fields pk,
    (∀ k, pk = Some k → k ≠ "") →
    let all := option_list pk ++ (filter (fun kv => is_primary kv = true) items).*1 in
    match scan_attrs items mappings fields pk with
    | Ok (_, _, pk') => pk' = head all ∧ (length all ≤ 1)%nat ∧ ∀ k, pk' = Some k → k ≠ ""
    | Raise e =>
        ∃ k1 k2 rest, all = k1 :: k2 :: rest
          ∧ e = RuntimeError ("Duplicate primary key for field: " +:+ k2)
    end.
Proof.
  induction 1 as [|[k a] items Hk _ IH]; intros mappings fields pk Hpk; simpl.
  - destruct pk; simpl; repeat split; auto with lia.
  - simpl in Hk. destruct a as [f|v].
    + destruct (Field.primary_key f) eqn:Hf.
      * rewrite filter_cons_True by (unfold is_primary; simpl; done).
        destruct pk as [k0|]; simpl.
        -- rewrite truthy_str_Some by auto. eauto.
        -- specialize (IH (<[k:=f]> mappings) fields (Some k)). simpl in IH.
           apply IH. by intros ? [= <-].
      * rewrite filter_cons_False by (unfold is_primary; simpl; rewrite Hf; done).
        apply IH, Hpk.
    + rewrite filter_cons_False by (unfold is_primary; simpl; done).
      apply IH, Hpk.
Qed.

(** C1. For every class ModelMetaclass processes (any name but Model),
    with attribute names that are identifiers, construction succeeds exactly
    when one Field of the class body is marked primary key.  With none it
    raises RuntimeError 'Primary key not found.', with two or more it raises
    RuntimeError 'Duplicate primary key for field: ...' at the second one; in
    both cases no class is produced, so no instance can be made. *)
Theorem ModelMetaclass_one_primary_key name bases attrs :
  name ≠ "Model" →
  named (members attrs) →
  match ModelMetaclass.__new__ name bases attrs with
  | Ok c =>
      ∃ k m, primary_keys attrs = [k] ∧ c = Mapped m ∧ __primary_key__ m = k
  | Raise e =>
      (primary_keys attrs = [] ∧ e = RuntimeError "Primary key not found.")
      ∨ (∃ k1 k2 rest, primary_keys attrs = k1 :: k2 :: rest
           ∧ e = RuntimeError ("Duplicate primary key for field: " +:+ k2))
  end.
Proof.
  intros Hname Hnamed. unfold ModelMetaclass.__new__, primary_keys.
  destruct (String.eqb_spec name "Model") as [->|_]; [done|].
  pose proof (scan_attrs_primary _ Hnamed ∅ [] None) as Hscan.
  simpl in Hscan.
  destruct (scan_attrs (members attrs) ∅ [] None) as [[[mappings fields] pk]|e].
  - destruct Hscan as (Hpk & Hlen & Hne); [done|].
    destruct ((filter (fun kv => is_primary kv = true) (members attrs)).*1)
      as [|k [|k' rest]] eqn:Hall; simpl in *; subst pk.
    + simpl. by left.
    + rewrite truthy_str_Some by auto. simpl. eauto.
    + lia.
  - destruct Hscan as (k1 & k2 & rest & -> & ->); [done|]. right. eauto.
Qed.

(** *** What the loop collects *)

(** The non-key names are appended in the order of the class body. *)
Lemma scan_attrs_fields items :
  ∀ mappings fields pk m' f' pk',
    scan_attrs items mappings fields pk = Ok (m', f', pk') →
    f' = fields ++ plain_fields items.
Proof.
  unfold plain_fields.
  induction items as [|[k a] items IH]; intros mappings fields pk m' f' pk' Hscan;
    simpl in Hscan.
  - injection Hscan as <- <- <-. by rewrite app_nil_r.
  - destruct a as [f|v].
    + destruct (Field.primary_key f) eqn:Hf.
      * rewrite filter_cons_False
          by (unfold is_plain_field; simpl; rewrite Hf; done).
        destruct (truthy_str pk); [done|]. eapply IH, Hscan.
      * rewrite filter_cons_True
          by (unfold is_plain_field; simpl; rewrite Hf; done).
        apply IH in Hscan. rewrite Hscan, <- app_assoc. done.
    + rewrite filter_cons_False by (unfold is_plain_field; simpl; done).
      eapply IH, Hscan.
Qed.

(** A name the class body does not bind keeps its entry in [mappings]. *)
Lemma scan_attrs_mappings_other items :
  ∀ mappings fields pk m' f' pk' k,
    scan_attrs items mappings fields pk = Ok (m', f', pk') →
    k ∉ items.*1 →
    m' !! k = mappings !! k.
Proof.
  induction items as [|[k0 a] items IH]; intros mappings fields pk m' f' pk' k Hscan Hk;
    simpl in Hscan.
  - by injection Hscan as <- <- <-.
  - rewrite fmap_cons, not_elem_of_cons in Hk. destruct Hk as [Hne Hk]. simpl in Hne.
    destruct a as [f|v].
    + destruct (Field.primary_key f).
      * destruct (truthy_str pk); [done|].
        rewrite (IH _ _ _ _ _ _ _ Hscan Hk). by rewrite lookup_insert_ne.
      * rewrite (IH _ _ _ _ _ _ _ Hscan Hk). by rewrite lookup_insert_ne.
    + eapply IH; eauto.
Qed.

(** Every Field of the class body is in [mappings], under its name (the
    names of a class body are distinct: it is a dict). *)
Lemma scan_attrs_mappings items :
  ∀ mappings fields pk m' f' pk' k f,
    scan_attrs items mappings fields pk = Ok (m', f', pk') →
    NoDup items.*1 →
    (k, AField f) ∈ items →
    m' !! k = Some f.
Proof.
  induction items as [|[k0 a] items IH]; intros mappings fields pk m' f' pk' k f Hscan Hnd Hin.
  - by apply elem_of_nil in Hin.
  - rewrite fmap_cons in Hnd. apply NoDup_cons in Hnd as [Hk0 Hnd]. simpl in Hk0.
    apply elem_of_cons in Hin as [[= <- <-]|Hin]; simpl in Hscan.
    + destruct (Field.primary_key f).
      * destruct (truthy_str pk); [done|].
        rewrite (scan_attrs_mappings_other _ _ _ _ _ _ _ _ Hscan Hk0).
        apply lookup_insert_eq.
      * rewrite (scan_attrs_mappings_other _ _ _ _ _ _ _ _ Hscan Hk0).
        apply lookup_insert_eq.
    + destruct a as [f0|v].
      * destruct (Field.primary_key f0).
        -- destruct (truthy_str pk); [done|]. eapply IH; eauto.
        -- eapply IH; eauto.
      * eapply IH; eauto.
Qed.

(** The primary key the loop ends with is bound to a Field marked primary
    key in the class body, unless it was there before the loop. *)
Lemma scan_attrs_primary_in items :
  ∀ mappings fields pk m' f' pk' k,
    scan_attrs items mappings fields pk = Ok (m', f', pk') →
    pk' = Some k →
    pk = Some k ∨ ∃ f, (k, AField f) ∈ items ∧ Field.primary_key f = true.
Proof.
  induction items as [|[k0 a] items IH]; intros mappings fields pk m' f' pk' k Hscan Hpk;
    simpl in Hscan.
  - injection Hscan as <- <- <-. by left.
  - destruct a as [f|v].
    + destruct (Field.primary_key f) eqn:Hf.
      * destruct (truthy_str pk); [done|].
        destruct (IH _ _ _ _ _ _ _ Hscan Hpk) as [[= <-]|(f1 & Hin & Hf1)]; right.
        -- exists f. split; [|done]. apply elem_of_cons. by left.
        -- exists f1. split; [|done]. apply elem_of_cons. by right.
      * destruct (IH _ _ _ _ _ _ _ Hscan Hpk) as [?|(f1 & Hin & Hf1)]; [by left|right].
        exists f1. split; [|done]. apply elem_of_cons. by right.
    + destruct (IH _ _ _ _ _ _ _ Hscan Hpk) as [?|(f1 & Hin & Hf1)]; [by left|right].
      exists f1. split; [|done]. apply elem_of_cons. by right.
Qed.

(** What a successful class construction has computed. *)
Lemma ModelMetaclass_new_inv name bases attrs c :
  ModelMetaclass.__new__ name bases attrs = Ok (Mapped c) →
  ∃ mappings pk,
    scan_attrs (members attrs) ∅ [] None = Ok (mappings, plain_fields (members attrs), Some pk)
    ∧ __mappings__ c = mappings
    ∧ __fields__ c = plain_fields (members attrs)
    ∧ __primary_key__ c = pk
    ∧ cls_bases c = bases
    ∧ cls_members c = filter (fun kv => mappings !! kv.1 = None) (members attrs)
    ∧ __select__ c =
        "select `" +:+ pk +:+ "`, " +:+ join ", " (map escaped (__fields__ c))
        +:+ " from `" +:+ __table__ c +:+ "`"
    ∧ __insert__ c =
        "insert into `" +:+ __table__ c +:+ "` (" +:+ join ", " (map escaped (__fields__ c))
        +:+ ", `" +:+ pk +:+ "`) values ("
        +:+ create_args_string (length (map escaped (__fields__ c)) + 1) +:+ ")"
    ∧ __update__ c =
        "update `" +:+ __table__ c +:+ "` set "
        +:+ join ", " (map (set_item mappings) (__fields__ c))
        +:+ " where `" +:+ pk +:+ "`=?".
Proof.
  unfold ModelMetaclass.__new__. intros Hnew.
  destruct (String.eqb name "Model"); [done|].
  destruct (scan_attrs (members attrs) ∅ [] None) as [[[mappings fields] pk]|e] eqn:Hscan;
    [|done].
  pose proof (scan_attrs_fields _ _ _ _ _ _ _ Hscan) as Hf. simpl in Hf. subst fields.
  destruct pk as [pk|]; [|done].
  destruct (truthy_str (Some pk)); [|done]. simpl in Hnew.
  injection Hnew as <-. simpl. exists mappings, pk. repeat split; reflexivity.
Qed.

Lemma string_length_append (a b : string) :
  String.length (a +:+ b) = (String.length a + String.length b)%nat.
Proof. induction a as [|c a IH]; simpl; [done|]. by rewrite IH. Qed.

Lemma string_append_inj_r (s a b : string) : a +:+ s = b +:+ s → a = b.
Proof.
  revert b. induction a as [|c a IH]; intros [|d b] Heq; simpl in *.
  - done.
  - apply (f_equal String.length) in Heq. simpl in Heq.
    rewrite !string_length_append in Heq. simpl in Heq. lia.
  - apply (f_equal String.length) in Heq. simpl in Heq.
    rewrite !string_length_append in Heq. simpl in Heq. lia.
  - injection Heq as -> Heq. f_equal. by apply IH.
Qed.

(** C9. For a non-key field whose Field declares a column name other than
    the attribute name, at the position the field has among the non-key
    fields the canned SELECT and INSERT list the attribute name as column,
    while the SET clause of the canned UPDATE assigns to the declared column
    name: the three statements do not address the same column. *)
Theorem canned_statements_columns name bases attrs c f fld col :
  ModelMetaclass.__new__ name bases attrs = Ok (Mapped c) →
  NoDup (members attrs).*1 →
  (f, AField fld) ∈ members attrs →
  Field.primary_key fld = false →
  Field.name fld = Some col →
  col ≠ "" →
  col ≠ f →
  ∃ (i : nat) (cols sets : list string),
    __fields__ c !! i = Some f
    ∧ __select__ c =
        "select `" +:+ __primary_key__ c +:+ "`, " +:+ join ", " cols
        +:+ " from `" +:+ __table__ c +:+ "`"
    ∧ __insert__ c =
        "insert into `" +:+ __table__ c +:+ "` (" +:+ join ", " cols
        +:+ ", `" +:+ __primary_key__ c +:+ "`) values ("
        +:+ create_args_string (length cols + 1) +:+ ")"
    ∧ __update__ c =
        "update `" +:+ __table__ c +:+ "` set " +:+ join ", " sets
        +:+ " where `" +:+ __primary_key__ c +:+ "`=?"
    ∧ cols !! i = Some ("`" +:+ f +:+ "`")
    ∧ sets !! i = Some ("`" +:+ col +:+ "`=?")
    ∧ sets !! i ≠ Some ("`" +:+ f +:+ "`=?").
Proof.
  intros Hnew Hnd Hin Hpk Hname Hcol Hne.
  destruct (ModelMetaclass_new_inv _ _ _ _ Hnew)
    as (mappings & pk & Hscan & Hm & Hf & <- & _ & _ & Hsel & Hins & Hupd).
  assert (f ∈ __fields__ c) as Hfin.
  { rewrite Hf. unfold plain_fields.
    apply (list_elem_of_fmap_2 fst _ (f, AField fld)).
    apply list_elem_of_filter. split; [|done].
    unfold is_plain_field. simpl. by rewrite Hpk. }
  apply list_elem_of_lookup in Hfin as [i Hi].
  assert (set_item mappings f = "`" +:+ col +:+ "`=?") as Hset.
  { unfold set_item. rewrite (scan_attrs_mappings _ _ _ _ _ _ _ _ _ Hscan Hnd Hin).
    rewrite Hname, truthy_str_Some by done. reflexivity. }
  exists i, (map escaped (__fields__ c)), (map (set_item mappings) (__fields__ c)).
  repeat split; try done.
  - rewrite list_lookup_fmap, Hi. reflexivity.
  - rewrite list_lookup_fmap, Hi. simpl. by rewrite Hset.
  - rewrite list_lookup_fmap, Hi. simpl. rewrite Hset. intros [= Heq].
    apply (string_append_inj_r "`=?" col f) in Heq. done.
Qed.

(** The sample class is the one the metaclass builds from its body. *)
Example User_is_built :
  ModelMetaclass.__new__ "User" Model_attrs User_body = Ok (Mapped User).
Proof. vm_compute. reflexivity. Qed.

Example Keyless_is_refused :
  ModelMetaclass.__new__ "Keyless" Model_attrs Keyless_body
  = Raise (RuntimeError "Primary key not found.").
Proof. vm_compute. reflexivity. Qed.

Example TwoKeys_is_refused :
  ModelMetaclass.__new__ "TwoKeys" Model_attrs TwoKeys_body
  = Raise (RuntimeError "Duplicate primary key for field: uid").
Proof. vm_compute. reflexivity. Qed.

Lemma ModelMetaclass_one_primary_key_witness :
  "User" ≠ "Model"
  ∧ named (members User_body)
  ∧ match ModelMetaclass.__new__ "User" Model_attrs User_body with
    | Ok c =>
        ∃ k m, primary_keys User_body = [k] ∧ c = Mapped m ∧ __primary_key__ m = k
    | Raise e =>
        (primary_keys User_body = [] ∧ e = RuntimeError "Primary key not found.")
        ∨ (∃ k1 k2 rest, primary_keys User_body = k1 :: k2 :: rest
             ∧ e = RuntimeError ("Duplicate primary key for field: " +:+ k2))
    end.
Proof.
  assert ("User" ≠ "Model") as H1 by discriminate.
  assert (named (members User_body)) as H2
    by (unfold named; simpl; repeat constructor; discriminate).
  split; [exact H1|]. split; [exact H2|].
  exact (ModelMetaclass_one_primary_key "User" Model_attrs User_body H1 H2).
Defined.

Lemma canned_statements_columns_witness :
  ∃ (i : nat) (cols sets : list string),
    __fields__ User !! i = Some "created_at"
    ∧ __select__ User =
        "select `" +:+ __primary_key__ User +:+ "`, " +:+ join ", " cols
        +:+ " from `" +:+ __table__ User +:+ "`"
    ∧ __insert__ User =
        "insert into `" +:+ __table__ User +:+ "` (" +:+ join ", " cols
        +:+ ", `" +:+ __primary_key__ User +:+ "`) values ("
        +:+ create_args_string (length cols + 1) +:+ ")"
    ∧ __update__ User =
        "update `" +:+ __table__ User +:+ "` set " +:+ join ", " sets
        +:+ " where `" +:+ __primary_key__ User +:+ "`=?"
    ∧ cols !! i = Some ("`" +:+ "created_at" +:+ "`")
    ∧ sets !! i = Some ("`" +:+ "ctime" +:+ "`=?")
    ∧ sets !! i ≠ Some ("`" +:+ "created_at" +:+ "`=?").
Proof.
  apply (canned_statements_columns "User" Model_attrs User_body User
           "created_at" User_created_at "ctime").
  - vm_compute. reflexivity.
  - apply (bool_decide_unpack _). vm_compute. exact I.
  - simpl. repeat first [apply list_elem_of_here | apply list_elem_of_further].
  - reflexivity.
  - reflexivity.
  - discriminate.
  - discriminate.
Defined.

End OrmMeta.

(* ===================================================================== *)
(** ** Properties of www/orm.py: select and execute *)
(* ===================================================================== *)

Module OrmData.
Import Py Orm DataVocabulary Samples.

(** Unfold one run of a data-access function down to the driver's
    answers, and split on each of them. *)
Ltac run_driver :=
  unfold select, execute, async_with, try_except, bind, ret, raise, when,
    driver_, driver, record_event, statement in *;
  simpl in *;
  repeat (case_match; simpl in *; simplify_eq);
  repeat (rewrite <- app_assoc in *; simpl in * ).

(** A size of 0 is not told from no size at all. *)
Lemma select_size_zero pool sql args w :
  select pool sql args (Some 0) w = select pool sql args None w.
Proof. reflexivity. Qed.

Lemma take_length_le {A} (n : nat) (l : list A) : (length (take n l) ≤ n)%nat.
Proof. rewrite length_take. lia. Qed.

(** C5, as the code has it. With no size, [select] returns the rows of the
    result set; with a positive size it returns the first [size] of them,
    hence at most [size] rows.  It does return them whenever the driver
    raises nowhere. *)
Theorem select_limit pool sql args size w :
  fetchmany_takes pool →
  (∀ n, size = Some n → 0 < n) →
  let result := rows pool (trace w ++ [EvAcquire; EvCursor; statement sql args]) in
  let expected :=
    match size with
    | Some n => take (Z.to_nat n) result
    | None => result
    end in
  (∀ rs w', select pool sql args size w = (Ok rs, w') → rs = expected)
  ∧ (quiet pool → ∃ w', select pool sql args size w = (Ok expected, w'))
  ∧ (∀ n, size = Some n → (length expected ≤ Z.to_nat n)%nat).
Proof.
  intros Hfetch Hpos result expected. subst result expected.
  repeat split.
  - intros rs w' Hsel. destruct size as [n|].
    + specialize (Hpos n eq_refl).
      assert (truthy_size (Some n) = true) as Ht
        by (unfold truthy_size; destruct (Z.eqb_spec n 0); [lia|done]).
      unfold select in Hsel. rewrite Ht in Hsel.
      run_driver. by rewrite Hfetch.
    + run_driver. done.
  - intros Hq. destruct size as [n|].
    + specialize (Hpos n eq_refl).
      assert (truthy_size (Some n) = true) as Ht
        by (unfold truthy_size; destruct (Z.eqb_spec n 0); [lia|done]).
      unfold select. rewrite Ht.
      unfold async_with, bind, ret, driver_, driver, record_event, statement.
      simpl. rewrite !Hq. simpl. rewrite <- !app_assoc. simpl.
      rewrite Hfetch by done. eauto.
    + unfold select, async_with, bind, ret, driver_, driver, record_event, statement.
      simpl. rewrite !Hq. simpl. rewrite <- !app_assoc. simpl. eauto.
  - intros n ->. apply take_length_le.
Qed.

(** Instances of a statement about every position of a trace, at the
    positions a run of [execute] can have. *)
Ltac at_positions H :=
  let go k :=
    try (let H' := fresh "Hat" in
         pose proof (H k _ eq_refl) as H'; simpl in H'; rewrite ?app_nil_r in H') in
  go 0%nat; go 1%nat; go 2%nat; go 3%nat; go 4%nat; go 5%nat; go 6%nat; go 7%nat.

Ltac at_later_positions H :=
  let go k :=
    try (let H' := fresh "Hat" in
         pose proof (H k _ ltac:(lia) eq_refl) as H'; simpl in H') in
  go 0%nat; go 1%nat; go 2%nat; go 3%nat; go 4%nat; go 5%nat; go 6%nat; go 7%nat.

Ltac each_position i :=
  repeat (destruct i as [|i]; simpl in *; simplify_eq).

(** C4. [execute] without autocommit: the transaction is begun before the
    statement runs; when an operation of the [try] block raises, a rollback
    follows and an exception reaches the caller, the very one that was
    raised unless a later operation (closing the cursor, the rollback, the
    release) raises in turn; when [execute] returns, the transaction was
    committed and the value is the row count; it does return when nothing
    raises.  Whenever a connection was leased, the last operation releases
    it. *)
Theorem execute_transaction pool sql args w :
  let out := execute pool sql args false w in
  let h := trace w in
  ∃ evs,
    trace (out.2) = h ++ evs
    ∧ lists (out.2) = lists w
    ∧ (∀ i s a, evs !! i = Some (EvExecute s a) →
         EvExecute s a = statement sql args
         ∧ ∃ j, (j < i)%nat ∧ evs !! j = Some EvBegin
                ∧ raises pool (h ++ take j evs) EvBegin = None)
    ∧ (∀ i ev e, evs !! i = Some ev → in_try ev = true →
         raises pool (h ++ take i evs) ev = Some e →
         (∃ j, (i < j)%nat ∧ evs !! j = Some EvRollback)
         ∧ (∃ e', out.1 = Raise e')
         ∧ ((∀ j ev', (i < j)%nat → evs !! j = Some ev' →
               raises pool (h ++ take j evs) ev' = None) →
            out.1 = Raise e))
    ∧ (∀ n, out.1 = Ok n →
         (∃ j, evs !! j = Some EvCommit ∧ raises pool (h ++ take j evs) EvCommit = None)
         ∧ (EvRollback ∉ evs)
         ∧ n = rowcount pool (h ++ [EvAcquire; EvBegin; EvCursor; statement sql args]))
    ∧ ((∀ j ev', evs !! j = Some ev' → raises pool (h ++ take j evs) ev' = None) →
         evs = [EvAcquire; EvBegin; EvCursor; statement sql args;
                EvCursorClose; EvCommit; EvRelease]
         ∧ out.1 = Ok (rowcount pool (h ++ [EvAcquire; EvBegin; EvCursor; statement sql args])))
    ∧ (raises pool h EvAcquire = None → last evs = Some EvRelease).
Proof.
  intros out h. subst out h.
  unfold execute, async_with, try_except, bind, ret, raise, when,
    driver_, driver, record_event, statement.
  simpl.
  repeat (case_match; simpl in *; simplify_eq).
  all: repeat (rewrite <- app_assoc in *; simpl in * ).
  all: eexists; split; [reflexivity|].
  all: split; [reflexivity|].
  all: split;
    [intros i s a Hi; each_position i; (split; [reflexivity|]);
     exists 1%nat; (split; [lia|]); (split; [reflexivity|]); assumption |].
  all: split;
    [intros i ev e' Hi Htry Hr; each_position i;
     (split; [first [by exists 3%nat; split; [lia|]
                    |by exists 4%nat; split; [lia|]
                    |by exists 5%nat; split; [lia|]
                    |by exists 6%nat; split; [lia|]] |]);
     (split; [by eexists|]);
     intros Hq; at_later_positions Hq; congruence |].
  all: split;
    [intros n Hn; simplify_eq; (split; [by exists 5%nat|]);
     (split; [|done]);
     intros Hin; repeat (apply elem_of_cons in Hin as [?|Hin]; [done|]);
     by apply elem_of_nil in Hin |].
  all: split; [intros Hq; at_positions Hq; try congruence; done |].
  all: intros Hacq; first [congruence | reflexivity].
Qed.

(** Two runs of [execute] without autocommit: one that goes through, one
    whose statement fails. *)
Example execute_commits :
  execute two_rows_pool "insert into `users` (`id`) values (?)" (Some [PStr "001"]) false world0
  = (Ok 1,
     {| lists := lists world0;
        trace := [EvAcquire; EvBegin; EvCursor;
                  EvExecute "insert into `users` (`id`) values (%s)" [PStr "001"];
                  EvCursorClose; EvCommit; EvRelease] |}).
Proof. reflexivity. Qed.

Example execute_rolls_back :
  execute failing_pool "insert into `users` (`id`) values (?)" (Some [PStr "001"]) false world0
  = (Raise (DriverError "IntegrityError"),
     {| lists := lists world0;
        trace := [EvAcquire; EvBegin; EvCursor;
                  EvExecute "insert into `users` (`id`) values (%s)" [PStr "001"];
                  EvCursorClose; EvRollback; EvRelease] |}).
Proof. reflexivity. Qed.

(** C5, as stated, fails at size 0: with a size of 0 [select] returns both
    rows of a two-row result set. *)
Lemma select_size_zero_counterexample :
  ∃ rs w',
    select two_rows_pool "select `id` from `users`" None (Some 0) world0 = (Ok rs, w')
    ∧ ¬ (Z.of_nat (length rs) ≤ 0).
Proof.
  eexists _, _. split; [reflexivity|]. simpl. lia.
Qed.

Lemma select_limit_witness :
  fetchmany_takes two_rows_pool
  ∧ (∀ n, Some 1 = Some n → 0 < n)
  ∧ (∃ w', select two_rows_pool "select `id` from `users`" None (Some 1) world0
           = (Ok [ {[ "id" := PStr "001" ]} ], w')).
Proof.
  assert (fetchmany_takes two_rows_pool) as H1 by (intros rs n _; reflexivity).
  assert (∀ n, Some 1 = Some n → 0 < n) as H2 by (intros n [= <-]; lia).
  split; [exact H1|]. split; [exact H2|].
  destruct (select_limit two_rows_pool "select `id` from `users`" None (Some 1) world0 H1 H2)
    as (_ & Hret & _).
  apply Hret. intros h ev. reflexivity.
Defined.

End OrmData.

(* ===================================================================== *)
(** ** More on select and execute *)
(* ===================================================================== *)

Module OrmDataMore.
Import Py Orm DataVocabulary ExtraVocabulary Samples.

Ltac unfold_driver :=
  unfold select, execute, async_with, try_except, bind, ret, raise, when,
    driver_, driver, record_event, statement.

Ltac by_membership Hin :=
  repeat (apply elem_of_cons in Hin as [?|Hin]; [by simplify_eq|]);
  by apply elem_of_nil in Hin.



(** With a driver that raises nowhere, [select] and [execute] run
    through. *)
Lemma select_quiet pool sql args size w :
  quiet pool →
  let h := trace w ++ [EvAcquire; EvCursor; statement sql args] in
  select pool sql args size w
  = if truthy_size size
    then (Ok (fetchmany pool (rows pool h) (default 0 size)),
          {| lists := lists w;
             trace := h ++ [EvFetchMany (default 0 size); EvCursorClose; EvRelease] |})
    else (Ok (rows pool h),
          {| lists := lists w; trace := h ++ [EvFetchAll; EvCursorClose; EvRelease] |}).
Proof.
  intros Hq h. subst h. unfold_driver.
  destruct (truthy_size size); simpl; rewrite !Hq; simpl;
    repeat (rewrite <- app_assoc; simpl); reflexivity.
Qed.

Lemma execute_quiet pool sql args w :
  quiet pool →
  let h := trace w ++ [EvAcquire; EvCursor; statement sql args] in
  execute pool sql args true w
  = (Ok (rowcount pool h),
     {| lists := lists w; trace := h ++ [EvCursorClose; EvRelease] |}).
Proof.
  intros Hq h. subst h. unfold_driver. simpl. rewrite !Hq. simpl.
  repeat (rewrite <- app_assoc; simpl). reflexivity.
Qed.

(** X1. [execute] with autocommit, over any driver: it never begins,
    commits or rolls back; the only statement it executes is the one given;
    whenever a connection was leased, the last operation releases it; a value
    it returns is the row count after the statement; an exception of the
    statement reaches the caller unchanged when closing the cursor and the
    release go through. *)
Theorem execute_autocommit pool sql args w :
  let out := execute pool sql args true w in
  let h := trace w in
  ∃ evs,
    trace (out.2) = h ++ evs
    ∧ lists (out.2) = lists w
    ∧ (∀ ev, ev ∈ evs → is_transaction ev = false)
    ∧ (∀ s a, EvExecute s a ∈ evs → EvExecute s a = statement sql args)
    ∧ (raises pool h EvAcquire = None → last evs = Some EvRelease)
    ∧ (∀ n, out.1 = Ok n →
         n = rowcount pool (h ++ [EvAcquire; EvCursor; statement sql args]))
    ∧ (∀ e, raises pool h EvAcquire = None →
         raises pool (h ++ [EvAcquire]) EvCursor = None →
         raises pool (h ++ [EvAcquire; EvCursor]) (statement sql args) = Some e →
         raises pool (h ++ [EvAcquire; EvCursor; statement sql args]) EvCursorClose = None →
         raises pool (h ++ [EvAcquire; EvCursor; statement sql args; EvCursorClose])
           EvRelease = None →
         out.1 = Raise e).
Proof.
  intros out h. subst out h. unfold_driver. simpl.
  repeat (case_match; simpl in *; simplify_eq).
  all: repeat (rewrite <- app_assoc in *; simpl in * ).
  all: eexists; split; [reflexivity|]; split; [reflexivity|].
  all: split; [intros ev Hin; by_membership Hin|].
  all: split; [intros s a Hin; by_membership Hin|].
  all: split; [intros Hacq; first [congruence | reflexivity]|].
  all: split; [intros n Hn; by simplify_eq|].
  all: intros e' Ha Hb Hc Hd He; congruence.
Qed.

(** X2. [select], over any driver: it opens no transaction; the only
    statement it executes is the one given; it fetches at most once; a cursor
    that was opened is closed and a connection that was leased is released,
    whatever raises in between; the shared lists are not touched. *)
Theorem select_releases pool sql args size w :
  let out := select pool sql args size w in
  let h := trace w in
  ∃ evs,
    trace (out.2) = h ++ evs
    ∧ lists (out.2) = lists w
    ∧ (∀ ev, ev ∈ evs → is_transaction ev = false)
    ∧ (∀ s a, EvExecute s a ∈ evs → EvExecute s a = statement sql args)
    ∧ (raises pool h EvAcquire = None → last evs = Some EvRelease)
    ∧ (raises pool h EvAcquire = None →
       raises pool (h ++ [EvAcquire]) EvCursor = None →
       EvCursorClose ∈ evs)
    ∧ (length (filter (fun ev => is_fetch ev = true) evs) ≤ 1)%nat.
Proof.
  intros out h. subst out h. unfold_driver. simpl.
  repeat (case_match; simpl in *; simplify_eq).
  all: repeat (rewrite <- app_assoc in *; simpl in * ).
  all: eexists; split; [reflexivity|]; split; [reflexivity|].
  all: split; [intros ev Hin; by_membership Hin|].
  all: split; [intros s a Hin; by_membership Hin|].
  all: split; [intros Hacq; first [congruence | reflexivity]|].
  all: split; [intros Ha Hb; first [congruence | set_solver]|].
  all: vm_compute; lia.
Qed.





End OrmDataMore.

(* ===================================================================== *)
(** ** Properties of www/orm.py: Model *)
(* ===================================================================== *)

Module OrmModel.
Import Py Orm Vocabulary DataVocabulary ModelVocabulary Samples OrmMeta.

#[local] Arguments truthy_str : simpl never.

Lemma string_append_assoc (a b c : string) : (a +:+ b) +:+ c = a +:+ (b +:+ c).
Proof.
  induction a as [|x a IH]; [done|].
  change (String x ((a +:+ b) +:+ c) = String x (a +:+ b +:+ c)). by rewrite IH.
Qed.

Lemma join_snoc sep (pre : list string) x :
  pre ≠ [] → join sep (pre ++ [x]) = join sep pre +:+ sep +:+ x.
Proof.
  unfold join. induction pre as [|y pre IH]; [done|]. intros _.
  destruct pre as [|z pre]; [reflexivity|].
  change (String.concat sep ((y :: z :: pre) ++ [x]))
    with (y +:+ sep +:+ String.concat sep ((z :: pre) ++ [x])).
  rewrite IH by done.
  change (String.concat sep (y :: z :: pre))
    with (y +:+ sep +:+ String.concat sep (z :: pre)).
  by rewrite !string_append_assoc.
Qed.

Lemma join_limit_one (pre : list string) :
  pre ≠ [] → join " " ((pre ++ ["limit"]) ++ ["?"]) = join " " pre +:+ " limit ?".
Proof.
  intros Hpre. rewrite join_snoc by (by destruct pre).
  rewrite join_snoc by done. by rewrite !string_append_assoc.
Qed.

Lemma join_limit_two (pre : list string) :
  pre ≠ [] → join " " ((pre ++ ["limit"]) ++ ["?, ?"]) = join " " pre +:+ " limit ?, ?".
Proof.
  intros Hpre. rewrite join_snoc by (by destruct pre).
  rewrite join_snoc by done. by rewrite !string_append_assoc.
Qed.

Lemma clauses_nonempty cls where_ orderBy : clauses cls where_ orderBy ≠ [].
Proof. unfold clauses. by destruct (truthy_str where_), (truthy_str orderBy). Qed.

(** [select] leaves the lists alone, and the only statement it executes is
    the one it was given, with the parameters it was given. *)
Lemma select_effect pool sql args size w :
  ∃ evs,
    trace ((select pool sql args size w).2) = trace w ++ evs
    ∧ lists ((select pool sql args size w).2) = lists w
    ∧ ∀ s p, EvExecute s p ∈ evs → EvExecute s p = statement sql args.
Proof.
  unfold select, async_with, bind, ret, driver_, driver, record_event, statement.
  simpl.
  repeat (case_match; simpl in *; simplify_eq).
  all: repeat (rewrite <- app_assoc in *; simpl in * ).
  all: eexists; split; [reflexivity|]; split; [reflexivity|].
  all: intros s p Hin;
    repeat (apply elem_of_cons in Hin as [?|Hin]; [by simplify_eq|]);
    by apply elem_of_nil in Hin.
Qed.

(** One run of [findAll] with a limit that is not [None], up to the
    query: the list the parameters are in, and what is done with the limit. *)
Lemma findAll_run pool cls where_ args orderBy limit w :
  is_None limit = false →
  live args w →
  ∃ l w0,
    trace w0 = trace w
    ∧ lists w0 !! l = Some (contents_before args w)
    ∧ (∀ l', args = Some l' → l' = l ∧ w0 = w)
    ∧ findAll pool cls where_ args orderBy limit w
      = match limit_values limit with
        | Some added =>
            select_instances pool cls
              (join " " (clauses cls where_ orderBy) +:+ " limit "
               +:+ (if isinstance_int limit then "?" else "?, ?"))
              (contents_before args w ++ added)
              {| lists := alter (fun xs => xs ++ added) l (lists w0); trace := trace w0 |}
        | None => (Raise (ValueError (fmt "Invalid limit value: " limit)), w0)
        end.
Proof.
  intros Hlimit Hlive.
  pose proof (clauses_nonempty cls where_ orderBy) as Hne.
  assert (∃ l w0, (match args with Some l => ret l | None => new_list end) w = (Ok l, w0)
                  ∧ trace w0 = trace w
                  ∧ lists w0 !! l = Some (contents_before args w)
                  ∧ (∀ l', args = Some l' → l' = l ∧ w0 = w))
    as (l & w0 & Hargs & Htr & Hxs & Hsame).
  { destruct args as [l|]; simpl.
    - exists l, w. destruct (Hlive l eq_refl) as [xs Hxs].
      rewrite Hxs. split; [done|]. split; [done|]. split; [done|].
      by intros ? [= <-].
    - eexists _, _. split; [reflexivity|]. simpl. rewrite lookup_insert_eq.
      split; [done|]. split; [done|]. intros ? [=]. }
  exists l, w0. split; [done|]. split; [done|]. split; [done|].
  unfold findAll. fold (clauses cls where_ orderBy).
  unfold bind at 1. rewrite Hargs, Hlimit. simpl negb. cbv iota.
  unfold limit_values.
  destruct (isinstance_int limit) eqn:Hint.
  - unfold bind, list_append, list_extend, list_contents, ret, select_instances, instances.
    cbv beta iota. cbn [lists trace].
    rewrite lookup_alter_eq, Hxs. simpl.
    rewrite join_limit_one by done. reflexivity.
  - destruct limit as [| | | | | |[|offset [|count [|? ?]]]| | | |];
      try discriminate; try reflexivity.
    unfold bind, list_extend, list_contents, ret, select_instances, instances.
    cbv beta iota. cbn [lists trace].
    rewrite lookup_alter_eq, Hxs. simpl.
    rewrite join_limit_two by done. reflexivity.
Qed.

(** C2. A call of [findAll] with a limit that is not [None].  For an int
    the query is the clauses so far followed by ' limit ?' and the int is the
    last parameter; for a pair it is followed by ' limit ?, ?' and the two
    components are the last parameters, in their order; for anything else
    [findAll] raises ValueError and no driver operation has taken place. *)
Theorem findAll_limit pool cls where_ args orderBy limit w :
  is_None limit = false →
  live args w →
  ∃ base w1,
    trace w1 = trace w
    ∧ base = join " " (clauses cls where_ orderBy)
    ∧ if isinstance_int limit then
        findAll pool cls where_ args orderBy limit w
        = select_instances pool cls (base +:+ " limit ?")
            (contents_before args w ++ [limit]) w1
      else
        match limit with
        | PTuple [offset; count] =>
            findAll pool cls where_ args orderBy limit w
            = select_instances pool cls (base +:+ " limit ?, ?")
                (contents_before args w ++ [offset; count]) w1
        | _ =>
            findAll pool cls where_ args orderBy limit w
            = (Raise (ValueError (fmt "Invalid limit value: " limit)), w1)
        end.
Proof.
  intros Hlimit Hlive.
  destruct (findAll_run pool cls where_ args orderBy limit w Hlimit Hlive)
    as (l & w0 & Htr & _ & _ & Hrun).
  unfold limit_values in Hrun.
  destruct (isinstance_int limit) eqn:Hint.
  - eexists _, _. split; [|split; [reflexivity|exact Hrun]]. done.
  - destruct limit as [| | | | | |[|offset [|count [|? ?]]]| | | |];
      try discriminate;
      try (eexists _, w0; split; [done|]; split; [reflexivity|exact Hrun]).
    eexists _, _. split; [|split; [reflexivity|exact Hrun]]. done.
Qed.

Lemma findAll_limit_witness :
  is_None (PInt 5) = false
  ∧ live (Some 0%nat) world0
  ∧ ∃ w1,
      trace w1 = trace world0
      ∧ findAll two_rows_pool User (Some "email=?") (Some 0%nat) None (PInt 5) world0
        = select_instances two_rows_pool User
            ("select `id`, `email`, `admin`, `created_at` from `users` where email=? limit ?")
            [PStr "a@b.c"; PInt 5] w1.
Proof.
  assert (is_None (PInt 5) = false) as H1 by reflexivity.
  assert (live (Some 0%nat) world0) as H2 by (intros l [= <-]; by eexists).
  split; [exact H1|]. split; [exact H2|].
  destruct (findAll_limit two_rows_pool User (Some "email=?") (Some 0%nat) None (PInt 5)
              world0 H1 H2) as (base & w1 & Htr & -> & Hrun).
  exists w1. split; [exact Htr|exact Hrun].
Defined.

(** The three shapes of limit, run. *)
Example findAll_limit_int :
  (findAll two_rows_pool User None None None (PInt 5) world0).1
  = Ok (instances User two_rows)
  ∧ trace ((findAll two_rows_pool User None None None (PInt 5) world0).2)
    = [EvAcquire; EvCursor;
       EvExecute "select `id`, `email`, `admin`, `created_at` from `users` limit %s" [PInt 5];
       EvFetchAll; EvCursorClose; EvRelease].
Proof. split; reflexivity. Qed.

Example findAll_limit_pair :
  trace ((findAll two_rows_pool User None (Some 0%nat) (Some "id desc")
            (PTuple [PInt 10; PInt 5]) world0).2)
  = [EvAcquire; EvCursor;
     EvExecute
       "select `id`, `email`, `admin`, `created_at` from `users` order by id desc limit %s, %s"
       [PStr "a@b.c"; PInt 10; PInt 5];
     EvFetchAll; EvCursorClose; EvRelease].
Proof. reflexivity. Qed.

Example findAll_limit_str :
  findAll two_rows_pool User None (Some 0%nat) None (PStr "x") world0
  = (Raise (ValueError (fmt "Invalid limit value: " (PStr "x"))), world0).
Proof. reflexivity. Qed.

Lemma select_instances_snd pool cls sql params w :
  (select_instances pool cls sql params w).2 = (select pool sql (Some params) None w).2.
Proof.
  unfold select_instances, bind, ret.
  by destruct (select pool sql (Some params) None w) as [[rs|e] w'].
Qed.

(** C10. A call of [findAll] on a list of the caller's and a limit that is
    an int or a pair: when the call is over, the caller's list has the limit
    value, or the two values of the pair, at its end, so it is longer than it
    was; and every statement the call executed was given the list as
    extended. *)
Theorem findAll_extends_args pool cls where_ orderBy limit l xs added w :
  lists w !! l = Some xs →
  limit_values limit = Some added →
  let out := findAll pool cls where_ (Some l) orderBy limit w in
  ∃ evs,
    lists (out.2) !! l = Some (xs ++ added)
    ∧ (length xs < length (xs ++ added))%nat
    ∧ trace (out.2) = trace w ++ evs
    ∧ ∀ sql params, EvExecute sql params ∈ evs → params = xs ++ added.
Proof.
  intros Hxs Hadded out. subst out.
  assert (is_None limit = false) as Hlimit by (by destruct limit).
  assert (live (Some l) w) as Hlive by (intros ? [= <-]; eauto).
  destruct (findAll_run pool cls where_ (Some l) orderBy limit w Hlimit Hlive)
    as (l' & w0 & _ & _ & Hsame & Hrun).
  destruct (Hsame l eq_refl) as [<- ->].
  rewrite Hadded in Hrun. rewrite Hrun, select_instances_snd. clear Hrun.
  simpl contents_before. rewrite Hxs. simpl default.
  match goal with
  | |- context [select pool ?sql ?a ?s ?w1] =>
      destruct (select_effect pool sql a s w1) as (evs & Htr & Hlists & Hstmt)
  end.
  exists evs. rewrite Htr, Hlists. simpl.
  split; [by rewrite lookup_alter_eq, Hxs|].
  assert (added ≠ []) as Hne.
  { unfold limit_values in Hadded. destruct (isinstance_int limit); [by simplify_eq|].
    destruct limit as [| | | | | |[|? [|? [|? ?]]]| | | |]; by simplify_eq. }
  split; [rewrite length_app; destruct added; [done|simpl; lia]|].
  split; [done|].
  intros sql params Hin. apply Hstmt in Hin. unfold statement in Hin.
  injection Hin as _ ->. simpl.
  destruct xs; [by destruct added|done].
Qed.

Lemma findAll_extends_args_witness :
  lists world0 !! 0%nat = Some [PStr "a@b.c"]
  ∧ limit_values (PTuple [PInt 10; PInt 5]) = Some [PInt 10; PInt 5]
  ∧ ∃ evs,
      lists ((findAll two_rows_pool User (Some "email=?") (Some 0%nat) None
                (PTuple [PInt 10; PInt 5]) world0).2) !! 0%nat
      = Some ([PStr "a@b.c"] ++ [PInt 10; PInt 5])
      ∧ (length [PStr "a@b.c"] < length ([PStr "a@b.c"] ++ [PInt 10; PInt 5]))%nat
      ∧ trace ((findAll two_rows_pool User (Some "email=?") (Some 0%nat) None
                  (PTuple [PInt 10; PInt 5]) world0).2) = trace world0 ++ evs
      ∧ ∀ sql params, EvExecute sql params ∈ evs → params = [PStr "a@b.c"] ++ [PInt 10; PInt 5].
Proof.
  assert (lists world0 !! 0%nat = Some [PStr "a@b.c"]) as H1 by reflexivity.
  assert (limit_values (PTuple [PInt 10; PInt 5]) = Some [PInt 10; PInt 5]) as H2
    by reflexivity.
  split; [exact H1|]. split; [exact H2|].
  exact (findAll_extends_args two_rows_pool User (Some "email=?") None
           (PTuple [PInt 10; PInt 5]) 0%nat [PStr "a@b.c"] [PInt 10; PInt 5] world0 H1 H2).
Defined.

(** *** getValueOrDefault and save *)

(** When the value read is [None] and the Field has a default, the default
    is returned and stored under the key. *)
Lemma getValueOrDefault_default self key field :
  __mappings__ (type_of self) !! key = Some field →
  is_None (Field.default field) = false →
  getattr self key PNone = PNone →
  getValueOrDefault key self
  = (Ok (default_value field),
     {| type_of := type_of self; items := <[key := default_value field]> (items self) |}).
Proof.
  intros Hfield Hdef Hval. unfold getValueOrDefault.
  rewrite Hval, Hfield. simpl. rewrite Hdef. reflexivity.
Qed.

(** For a key of [__mappings__] the method returns, and touches no other
    key of the instance. *)
Lemma getValueOrDefault_frame self key :
  is_Some (__mappings__ (type_of self) !! key) →
  ∃ v self',
    getValueOrDefault key self = (Ok v, self')
    ∧ type_of self' = type_of self
    ∧ ∀ k, k ≠ key → items self' !! k = items self !! k.
Proof.
  intros [field Hfield]. unfold getValueOrDefault. rewrite Hfield.
  destruct (is_None (getattr self key PNone)); [|by eauto].
  destruct (is_None (Field.default field)); simpl; [by eauto|].
  eexists _, _. split; [reflexivity|]. split; [done|].
  intros k Hk. simpl. by rewrite lookup_insert_ne.
Qed.

(** What the method returns for a key depends on the class and on the
    entry of that key only. *)
Lemma getValueOrDefault_ext s1 s2 key :
  type_of s1 = type_of s2 →
  items s1 !! key = items s2 !! key →
  (getValueOrDefault key s1).1 = (getValueOrDefault key s2).1
  ∧ items (getValueOrDefault key s1).2 !! key = items (getValueOrDefault key s2).2 !! key.
Proof.
  intros Hty Hitem. unfold getValueOrDefault, getattr. rewrite Hty, Hitem.
  destruct (is_None _); [|done].
  destruct (__mappings__ (type_of s2) !! key) as [field|]; [|done].
  destruct (is_None (Field.default field)); simpl; [done|].
  by rewrite !lookup_insert_eq.
Qed.

(** [list(map(self.getValueOrDefault, keys))] for distinct keys of
    [__mappings__]: it returns, each value is the one the method gives on
    the instance as it was, and so is each entry afterwards. *)
Lemma mapM_getValueOrDefault keys :
  ∀ self,
    NoDup keys →
    (∀ k, k ∈ keys → is_Some (__mappings__ (type_of self) !! k)) →
    ∃ vs self',
      mapM getValueOrDefault keys self = (Ok vs, self')
      ∧ type_of self' = type_of self
      ∧ (∀ k, k ∉ keys → items self' !! k = items self !! k)
      ∧ ∀ i k, keys !! i = Some k →
          vs !! i = match (getValueOrDefault k self).1 with
                    | Ok v => Some v
                    | Raise _ => None
                    end
          ∧ items self' !! k = items (getValueOrDefault k self).2 !! k.
Proof.
  induction keys as [|key keys IH]; intros self Hnd Hmap.
  - exists [], self. split; [done|]. split; [done|]. split; [done|].
    intros i k Hi. by rewrite lookup_nil in Hi.
  - apply NoDup_cons in Hnd as [Hkey Hnd].
    destruct (getValueOrDefault_frame self key) as (v & s1 & Hget & Hty & Hframe).
    { apply Hmap. apply elem_of_cons. by left. }
    destruct (IH s1 Hnd) as (vs & s2 & Hrest & Hty2 & Hframe2 & Hvals).
    { intros k Hk. rewrite Hty. apply Hmap. apply elem_of_cons. by right. }
    exists (v :: vs), s2. split; [|split; [|split]].
    + simpl. unfold bind, ret. rewrite Hget, Hrest. reflexivity.
    + congruence.
    + intros k Hk. apply not_elem_of_cons in Hk as [Hne Hk].
      rewrite Hframe2 by done. by apply Hframe.
    + intros [|i] k Hi; simpl in Hi.
      * injection Hi as <-. rewrite Hget. simpl. split; [done|].
        by apply Hframe2.
      * destruct (Hvals i k Hi) as [Hv Hitem].
        assert (k ≠ key) as Hne.
        { intros ->. apply Hkey. by eapply list_elem_of_lookup_2. }
        destruct (getValueOrDefault_ext s1 self k Hty (Hframe k Hne)) as [E1 E2].
        simpl. rewrite Hv, Hitem, E1, E2. done.
Qed.

Lemma mapM_getValueOrDefault_length keys :
  ∀ self vs self',
    mapM getValueOrDefault keys self = (Ok vs, self') → length vs = length keys.
Proof.
  induction keys as [|k ks IH]; intros self vs s1 Hm; simpl in Hm.
  - by injection Hm as <- <-.
  - unfold bind, ret in Hm.
    destruct (getValueOrDefault k self) as [[v|e] s]; [|done].
    destruct (mapM getValueOrDefault ks s) as [[vs'|e] s'] eqn:Hrest; [|done].
    injection Hm as <- <-. simpl. f_equal. by eapply IH.
Qed.

(** When the value read for a non-key field is [None] and its Field has a
    default: [getValueOrDefault] returns the default and stores it, and
    [save] hands the INSERT the default at the field's position. *)
Lemma save_default_of_read pool self w (i : nat) key field :
  well_formed (type_of self) →
  __fields__ (type_of self) !! i = Some key →
  __mappings__ (type_of self) !! key = Some field →
  is_None (Field.default field) = false →
  getattr self key PNone = PNone →
  let v := default_value field in
  getValueOrDefault key self
  = (Ok v, {| type_of := type_of self; items := <[key := v]> (items self) |})
  ∧ (callable (Field.default field) = false → v ≠ PNone)
  ∧ ∃ args self',
      args !! i = Some v
      ∧ length args = S (length (__fields__ (type_of self)))
      ∧ items self' !! key = Some v
      ∧ save pool (self, w)
        = match execute pool (__insert__ (type_of self)) (Some args) true w with
          | (Ok _, w') => (Ok tt, (self', w'))
          | (Raise e, w') => (Raise e, (self', w'))
          end.
Proof.
  intros [Hnd Hmap] Hi Hfield Hdef Hval v. subst v.
  pose proof (getValueOrDefault_default self key field Hfield Hdef Hval) as Hget.
  split; [exact Hget|]. split.
  { unfold default_value. intros ->. by destruct (Field.default field). }
  apply NoDup_app in Hnd as (Hndf & Hpk & _).
  destruct (mapM_getValueOrDefault (__fields__ (type_of self)) self Hndf)
    as (vs & s1 & Hmapm & Hty & Hframe & Hvals).
  { intros k Hk. apply Hmap. apply elem_of_app. by left. }
  destruct (getValueOrDefault_frame s1 (__primary_key__ (type_of self)))
    as (pk & s2 & Hgetpk & Hty2 & Hframe2).
  { rewrite Hty. apply Hmap. apply elem_of_app. right. apply list_elem_of_singleton. done. }
  assert (key ∈ __fields__ (type_of self)) as Hin by (by eapply list_elem_of_lookup_2).
  assert (key ≠ __primary_key__ (type_of self)) as Hne.
  { intros Heq. apply (Hpk key Hin). rewrite Heq. by apply list_elem_of_singleton. }
  destruct (Hvals i key Hi) as [Hv Hitem]. rewrite Hget in Hv, Hitem. simpl in Hv, Hitem.
  assert (length vs = length (__fields__ (type_of self))) as Hlen.
  { by eapply mapM_getValueOrDefault_length. }
  exists (vs ++ [pk]), s2. split; [|split; [|split]].
  - rewrite lookup_app_l by (rewrite Hlen; by eapply lookup_lt_Some). done.
  - rewrite length_app, Hlen. simpl. lia.
  - rewrite Hframe2 by done. rewrite Hitem. apply lookup_insert_eq.
  - unfold save, bind, ret, on_fst, on_snd. simpl.
    rewrite Hmapm. simpl. rewrite Hgetpk. simpl.
    by destruct (execute pool (__insert__ (type_of self)) (Some (vs ++ [pk])) true w)
      as [[n|e] w'].
Qed.

(** *** The classes the metaclass builds *)

Lemma elem_of_unique_key {A} (l : list (string * A)) k a b :
  NoDup l.*1 → (k, a) ∈ l → (k, b) ∈ l → a = b.
Proof.
  induction l as [|[k0 a0] l IH]; intros Hnd Ha Hb.
  - by apply elem_of_nil in Ha.
  - rewrite fmap_cons in Hnd. apply NoDup_cons in Hnd as [Hk0 Hnd]. simpl in Hk0.
    apply elem_of_cons in Ha as [Ha|Ha]; apply elem_of_cons in Hb as [Hb|Hb];
      simplify_eq.
    + done.
    + exfalso. apply Hk0. by apply (list_elem_of_fmap_2 fst _ (k0, b)).
    + exfalso. apply Hk0. by apply (list_elem_of_fmap_2 fst _ (k0, a)).
    + by apply IH.
Qed.

Lemma elem_of_plain_fields items k :
  k ∈ plain_fields items ↔ ∃ f, (k, AField f) ∈ items ∧ Field.primary_key f = false.
Proof.
  unfold plain_fields. rewrite list_elem_of_fmap. split.
  - intros ([k' a] & -> & Hin). apply list_elem_of_filter in Hin as [Hp Hin].
    unfold is_plain_field in Hp. simpl in *. destruct a as [f|v]; [|done].
    exists f. split; [done|]. by destruct (Field.primary_key f).
  - intros (f & Hin & Hf). exists (k, AField f). split; [done|].
    apply list_elem_of_filter. split; [|done].
    unfold is_plain_field. simpl. by rewrite Hf.
Qed.

(** The hypothesis of the properties of [save] holds of every class the
    metaclass builds. *)
Lemma ModelMetaclass_well_formed name bases attrs c :
  ModelMetaclass.__new__ name bases attrs = Ok (Mapped c) →
  NoDup (members attrs).*1 →
  well_formed c.
Proof.
  intros Hnew Hnd.
  destruct (ModelMetaclass_new_inv _ _ _ _ Hnew)
    as (mappings & pk & Hscan & Hm & Hf & Hpk & _).
  destruct (scan_attrs_primary_in _ _ _ _ _ _ _ pk Hscan eq_refl)
    as [?|(fpk & Hinpk & Hfpk)]; [done|].
  unfold well_formed. rewrite Hm, Hf, Hpk. split.
  - apply NoDup_app. split; [|split].
    + unfold plain_fields. eapply sublist_NoDup; [exact Hnd|].
      apply fmap_sublist, sublist_filter.
    + intros k Hk Hk'. apply list_elem_of_singleton in Hk' as ->.
      apply elem_of_plain_fields in Hk as (f & Hin & Hfalse).
      assert (AField f = AField fpk) as [= ->] by (by eapply elem_of_unique_key).
      congruence.
    + apply NoDup_singleton.
  - intros k Hk. apply elem_of_app in Hk as [Hk|Hk].
    + apply elem_of_plain_fields in Hk as (f & Hin & _).
      rewrite (scan_attrs_mappings _ _ _ _ _ _ _ _ _ Hscan Hnd Hin). eauto.
    + apply list_elem_of_singleton in Hk as ->.
      rewrite (scan_attrs_mappings _ _ _ _ _ _ _ _ _ Hscan Hnd Hinpk). eauto.
Qed.

Lemma assoc_None {A} key (l : list (string * A)) : key ∉ l.*1 → assoc key l = None.
Proof.
  induction l as [|[k a] l IH]; [done|]. intros Hk.
  rewrite fmap_cons in Hk. apply not_elem_of_cons in Hk as [Hne Hk]. simpl in *.
  destruct (String.eqb_spec k key) as [->|_]; [done|]. by apply IH.
Qed.

(** Ordinary lookup does not find a field on a class the metaclass built:
    the Field attributes were popped from the class namespace (lines
    141-142); as long as the bases have no attribute of that name and the
    name is none of the metadata names, [getattr] goes to the dict. *)
Lemma class_getattr_field name bases attrs c key :
  ModelMetaclass.__new__ name bases attrs = Ok (Mapped c) →
  is_Some (__mappings__ c !! key) →
  bases !! key = None →
  key ∉ (metadata c).*1 →
  class_getattr c key = None.
Proof.
  intros Hnew [field Hfield] Hbases Hmeta.
  destruct (ModelMetaclass_new_inv _ _ _ _ Hnew)
    as (mappings & pk & _ & Hm & _ & _ & Hb & Hrest & _).
  unfold class_getattr. rewrite (assoc_None _ _ Hmeta).
  rewrite assoc_None; [by rewrite Hb|].
  unfold namespace. intros ([k a] & -> & Hin)%list_elem_of_fmap.
  apply list_elem_of_filter in Hin as [_ Hin]. rewrite Hrest in Hin.
  apply list_elem_of_filter in Hin as [Hnone _]. simpl in *. congruence.
Qed.

(** With no class attribute of that name, the value read is [None] exactly
    when the key is not set or is set to [None]. *)
Lemma getattr_None self key :
  class_getattr (type_of self) key = None →
  getattr self key PNone = PNone
  ↔ items self !! key = None ∨ items self !! key = Some PNone.
Proof.
  intros Hcls. unfold getattr. rewrite Hcls.
  destruct (items self !! key) as [v|]; simpl.
  - split; [intros ->; by right|]. intros [?|?]; by simplify_eq.
  - split; [by left|done].
Qed.

(** An instance of the sample class whose [admin] was set to [None]. *)
Example User_admin_None :
  let u := {| type_of := User; items := {[ "email" := PStr "a@b.c"; "admin" := PNone ]} |} in
  getattr u "admin" PNone = PNone
  ∧ (save two_rows_pool (u, world0)).1 = Ok tt
  ∧ trace (save two_rows_pool (u, world0)).2.2
    = [EvAcquire; EvCursor;
       EvExecute
         "insert into `users` (`email`, `admin`, `created_at`, `id`) values (%s, %s, %s, %s)"
         [PStr "a@b.c"; PBool false; PFloat 3 0; PStr "001"];
       EvCursorClose; EvRelease]
  ∧ items (save two_rows_pool (u, world0)).2.1 !! "admin" = Some (PBool false).
Proof. vm_compute. repeat split; reflexivity. Qed.

(** C8, as the code has it.  On an instance of a class the metaclass
    built, for a non-key field whose Field has a default other than [None]
    and whose name is neither an attribute the class inherits from its bases
    nor one of the metadata names: when the stored value is [None] or the
    field is not set, [getValueOrDefault] returns the default and stores it
    under the field; and [save] hands the INSERT a parameter list with the
    default at the field's position, and leaves the default stored in the
    instance.  A default that is not a callable is not [None]. *)
Theorem save_uses_default name bases attrs pool self w (i : nat) key field :
  ModelMetaclass.__new__ name bases attrs = Ok (Mapped (type_of self)) →
  NoDup (members attrs).*1 →
  __fields__ (type_of self) !! i = Some key →
  __mappings__ (type_of self) !! key = Some field →
  is_None (Field.default field) = false →
  bases !! key = None →
  key ∉ (metadata (type_of self)).*1 →
  items self !! key = None ∨ items self !! key = Some PNone →
  let v := default_value field in
  getValueOrDefault key self
  = (Ok v, {| type_of := type_of self; items := <[key := v]> (items self) |})
  ∧ (callable (Field.default field) = false → v ≠ PNone)
  ∧ ∃ args self',
      args !! i = Some v
      ∧ length args = S (length (__fields__ (type_of self)))
      ∧ items self' !! key = Some v
      ∧ save pool (self, w)
        = match execute pool (__insert__ (type_of self)) (Some args) true w with
          | (Ok _, w') => (Ok tt, (self', w'))
          | (Raise e, w') => (Raise e, (self', w'))
          end.
Proof.
  intros Hnew Hnd Hi Hfield Hdef Hbases Hmeta Hstored.
  apply (save_default_of_read pool self w i key field); try done.
  - by eapply ModelMetaclass_well_formed.
  - apply getattr_None; [|exact Hstored].
    eapply class_getattr_field; eauto.
Qed.

Lemma save_uses_default_witness :
  let u := {| type_of := User; items := {[ "email" := PStr "a@b.c"; "admin" := PNone ]} |} in
  items u !! "admin" = Some PNone
  ∧ getValueOrDefault "admin" u
    = (Ok (PBool false),
       {| type_of := User; items := <["admin" := PBool false]> (items u) |})
  ∧ ∃ args self',
      args !! 1%nat = Some (PBool false)
      ∧ items self' !! "admin" = Some (PBool false)
      ∧ save two_rows_pool (u, world0)
        = match execute two_rows_pool (__insert__ User) (Some args) true world0 with
          | (Ok _, w') => (Ok tt, (self', w'))
          | (Raise e, w') => (Raise e, (self', w'))
          end.
Proof.
  intros u.
  assert (NoDup (members User_body).*1) as Hnd
    by (apply (bool_decide_unpack _); vm_compute; exact I).
  assert ("admin" ∉ (metadata User).*1) as Hmeta
    by (apply (bool_decide_unpack _); vm_compute; exact I).
  assert (items u !! "admin" = Some PNone) as Hstored by reflexivity.
  split; [exact Hstored|].
  destruct (save_uses_default "User" Model_attrs User_body two_rows_pool u world0
              1%nat "admin" User_admin User_is_built Hnd)
    as (Hget & _ & args & self' & Hargs & _ & Hitem & Hsave);
    [reflexivity | reflexivity | reflexivity | reflexivity | exact Hmeta
    | right; exact Hstored |].
  split; [exact Hget|]. exists args, self'. auto.
Defined.

(** The sample class with a column named like a method of dict is the one
    the metaclass builds from its body. *)
Example Basket_is_built :
  ModelMetaclass.__new__ "Basket" Model_attrs Basket_body = Ok (Mapped Basket).
Proof. vm_compute. reflexivity. Qed.

(** C8, as stated, fails for a field named like an attribute the class
    inherits.  [items] is a non-key field of the class with the default
    ['nothing'], and the instance has [None] stored under it; what
    [getattr(self, 'items', None)] reads is the method of dict, so
    [getValueOrDefault] returns the method and stores nothing, and [save]
    hands the INSERT the method, not the default; the stored value is still
    [None]. *)
Lemma save_shadowed_field_counterexample :
  let b := {| type_of := Basket; items := {[ "id" := PStr "7"; "items" := PNone ]} |} in
  __fields__ Basket = ["items"]
  ∧ __mappings__ Basket !! "items" = Some Basket_items
  ∧ Field.default Basket_items = PStr "nothing"
  ∧ items b !! "items" = Some PNone
  ∧ getValueOrDefault "items" b = (Ok (PObj "function"), b)
  ∧ (save two_rows_pool (b, world0)).1 = Ok tt
  ∧ trace (save two_rows_pool (b, world0)).2.2
    = [EvAcquire; EvCursor;
       EvExecute "insert into `Basket` (`items`, `id`) values (%s, %s)"
                 [PObj "function"; PStr "7"];
       EvCursorClose; EvRelease]
  ∧ items (save two_rows_pool (b, world0)).2.1 !! "items" = Some PNone
  ∧ default_value Basket_items ≠ PObj "function".
Proof. vm_compute. repeat split; try reflexivity. discriminate. Qed.

End OrmModel.

(* ===================================================================== *)
(** ** More on the metaclass and on Model *)
(* ===================================================================== *)

Module OrmModelMore.
Import Py Orm Vocabulary DataVocabulary ModelVocabulary ExtraVocabulary Samples.
Import OrmMeta OrmModel OrmDataMore.

#[local] Arguments truthy_str : simpl never.

(** *** What the metaclass leaves in the class *)

(** An entry of [mappings] was there before the loop or is a Field of the
    class body. *)
Lemma scan_attrs_mappings_inv items :
  ∀ mappings fields pk m' f' pk' k f,
    scan_attrs items mappings fields pk = Ok (m', f', pk') →
    m' !! k = Some f →
    mappings !! k = Some f ∨ (k, AField f) ∈ items.
Proof.
  induction items as [|[k0 a] items IH]; intros mappings fields pk m' f' pk' k f Hscan Hk;
    simpl in Hscan.
  - injection Hscan as <- <- <-. by left.
  - assert (∀ (fld : Field.t) fields' pk'',
              scan_attrs items (<[k0:=fld]> mappings) fields' pk'' = Ok (m', f', pk') →
              mappings !! k = Some f ∨ (k, AField f) ∈ (k0, AField fld) :: items) as Hstep.
    { intros fld fields' pk'' Hs.
      destruct (IH _ _ _ _ _ _ _ _ Hs Hk) as [Hins|Hin].
      - destruct (decide (k0 = k)) as [->|Hne].
        + rewrite lookup_insert_eq in Hins. injection Hins as ->.
          right. apply elem_of_cons. by left.
        + rewrite lookup_insert_ne in Hins by done. by left.
      - right. apply elem_of_cons. by right. }
    destruct a as [fld|v].
    + destruct (Field.primary_key fld).
      * destruct (truthy_str pk); [done|]. by eapply Hstep.
      * by eapply Hstep.
    + destruct (IH _ _ _ _ _ _ _ _ Hscan Hk) as [?|Hin]; [by left|].
      right. apply elem_of_cons. by right.
Qed.

(** X4. A class the metaclass builds from a class body with distinct
    names: [__mappings__] holds the Fields of the body and nothing else,
    [__fields__] lists the names of the Fields that are not the key, in the
    order of the body, the primary key is the name of a Field marked as key
    and is not among [__fields__], and no Field is left in the class
    namespace. *)
Theorem metaclass_metadata name bases attrs c :
  ModelMetaclass.__new__ name bases attrs = Ok (Mapped c) →
  NoDup (members attrs).*1 →
  (∀ k f, __mappings__ c !! k = Some f ↔ (k, AField f) ∈ members attrs)
  ∧ __fields__ c = plain_fields (members attrs)
  ∧ (∃ f, (__primary_key__ c, AField f) ∈ members attrs ∧ Field.primary_key f = true)
  ∧ (__primary_key__ c ∉ __fields__ c)
  ∧ (∀ k a, (k, a) ∈ cls_members c ↔ ∃ v, a = AValue v ∧ (k, AValue v) ∈ members attrs).
Proof.
  intros Hnew Hnd.
  destruct (ModelMetaclass_new_inv _ _ _ _ Hnew)
    as (mappings & pk & Hscan & Hm & Hf & Hpk & _ & Hrest & _).
  destruct (ModelMetaclass_well_formed _ _ _ _ Hnew Hnd) as [Hnodup _].
  assert (∀ k f, mappings !! k = Some f ↔ (k, AField f) ∈ members attrs) as Hmap.
  { intros k f. split.
    - intros Hk. destruct (scan_attrs_mappings_inv _ _ _ _ _ _ _ _ _ Hscan Hk) as [?|?];
        [by rewrite lookup_empty in *|done].
    - by apply (scan_attrs_mappings _ _ _ _ _ _ _ _ _ Hscan Hnd). }
  rewrite Hm, Hpk. split; [exact Hmap|]. split; [exact Hf|]. split; [|split].
  - destruct (scan_attrs_primary_in _ _ _ _ _ _ _ pk Hscan eq_refl) as [?|?]; [done|].
    done.
  - apply NoDup_app in Hnodup as (_ & Hdisj & _). intros Hin.
    apply (Hdisj _ Hin). rewrite Hpk. by apply list_elem_of_singleton.
  - intros k a. rewrite Hrest, list_elem_of_filter. simpl. split.
    + intros [Hnone Hin]. destruct a as [f|v]; [|by eauto].
      apply Hmap in Hin. congruence.
    + intros (v & -> & Hin). split; [|done].
      destruct (mappings !! k) as [f|] eqn:Hk; [|done].
      apply Hmap in Hk.
      by pose proof (elem_of_unique_key _ _ _ _ Hnd Hin Hk).
Qed.

Lemma metaclass_metadata_witness :
  __fields__ User = plain_fields (members User_body)
  ∧ (__primary_key__ User ∉ __fields__ User)
  ∧ (∀ k f, __mappings__ User !! k = Some f ↔ (k, AField f) ∈ members User_body).
Proof.
  assert (NoDup (members User_body).*1) as Hnd
    by (apply (bool_decide_unpack _); vm_compute; exact I).
  destruct (metaclass_metadata "User" Model_attrs User_body User User_is_built Hnd)
    as (H1 & H2 & _ & H4 & _).
  split; [exact H2|]. split; [exact H4|exact H1].
Defined.

(** *** The placeholders of the canned statements *)

Lemma count_qmarks_app a b :
  count_qmarks (a +:+ b) = (count_qmarks a + count_qmarks b)%nat.
Proof.
  induction a as [|x a IH]; [done|].
  change (count_qmarks (String x (a +:+ b))
          = (count_qmarks (String x a) + count_qmarks b)%nat).
  simpl. rewrite IH. lia.
Qed.

Lemma count_qmarks_join (parts : list string) :
  count_qmarks (join ", " parts) = sum_list (count_qmarks <$> parts).
Proof.
  unfold join. induction parts as [|x parts IH]; [done|].
  destruct parts as [|y parts]; [simpl; lia|].
  change (String.concat ", " (x :: y :: parts))
    with (x +:+ ", " +:+ String.concat ", " (y :: parts)).
  rewrite !count_qmarks_app, IH. simpl. lia.
Qed.

Lemma sum_list_snoc (l : list nat) x : sum_list (l ++ [x]) = (sum_list l + x)%nat.
Proof. induction l as [|y l IH]; simpl; [lia|]. rewrite IH. lia. Qed.

Lemma count_qmarks_question_marks n :
  sum_list (count_qmarks <$> question_marks n) = n.
Proof.
  induction n as [|n IH]; [done|]. simpl.
  rewrite fmap_app. simpl. rewrite sum_list_snoc, IH. simpl. lia.
Qed.

Lemma ModelMetaclass_new_delete name bases attrs c :
  ModelMetaclass.__new__ name bases attrs = Ok (Mapped c) →
  __delete__ c
  = "delete from `" +:+ __table__ c +:+ "` where `" +:+ __primary_key__ c +:+ "`=?".
Proof.
  unfold ModelMetaclass.__new__. intros Hnew.
  destruct (String.eqb name "Model"); [done|].
  destruct (scan_attrs (members attrs) ∅ [] None) as [[[mappings fields] pk]|e]; [|done].
  destruct (negb (truthy_str pk)); [done|]. by injection Hnew as <-.
Qed.

Lemma sum_escaped (fs : list string) :
  (∀ f, f ∈ fs → count_qmarks f = 0%nat) →
  sum_list (count_qmarks <$> map escaped fs) = 0%nat.
Proof.
  induction fs as [|f fs IH]; intros Hf; [done|].
  change (map escaped (f :: fs)) with (escaped f :: map escaped fs).
  rewrite fmap_cons. simpl sum_list.
  rewrite IH by (intros g Hg; apply Hf, elem_of_cons; by right).
  unfold escaped. rewrite !count_qmarks_app, (Hf f) by (apply elem_of_cons; by left).
  reflexivity.
Qed.

Lemma sum_set_items mappings (fs : list string) :
  (∀ f, f ∈ fs →
     count_qmarks match mappings !! f with
                  | Some fld =>
                      if truthy_str (Field.name fld) then default f (Field.name fld) else f
                  | None => f
                  end = 0%nat) →
  sum_list (count_qmarks <$> map (set_item mappings) fs) = length fs.
Proof.
  induction fs as [|f fs IH]; intros Hf; [done|].
  change (map (set_item mappings) (f :: fs))
    with (set_item mappings f :: map (set_item mappings) fs).
  rewrite fmap_cons. simpl sum_list.
  rewrite IH by (intros g Hg; apply Hf, elem_of_cons; by right).
  unfold set_item. rewrite !count_qmarks_app, (Hf f) by (apply elem_of_cons; by left).
  simpl. lia.
Qed.

(** X5. On a class the metaclass built, with no ['?'] in the table name,
    the attribute names and the column names: the canned SELECT has no
    placeholder, the canned INSERT and UPDATE have one per non-key field plus
    one for the key, the canned DELETE has one.  (These are the numbers of
    parameters [save], [update] and [remove] pass.) *)
Theorem canned_placeholders name bases attrs c :
  ModelMetaclass.__new__ name bases attrs = Ok (Mapped c) →
  plain_names c →
  count_qmarks (__select__ c) = 0%nat
  ∧ count_qmarks (__insert__ c) = S (length (__fields__ c))
  ∧ count_qmarks (__update__ c) = S (length (__fields__ c))
  ∧ count_qmarks (__delete__ c) = 1%nat.
Proof.
  intros Hnew (Ht & Hk & Hf).
  pose proof (ModelMetaclass_new_delete _ _ _ _ Hnew) as Hdel.
  destruct (ModelMetaclass_new_inv _ _ _ _ Hnew)
    as (mappings & pk & _ & Hm & _ & Hpk & _ & _ & Hsel & Hins & Hupd).
  subst pk.
  assert (sum_list (count_qmarks <$> map escaped (__fields__ c)) = 0%nat) as Hesc.
  { apply sum_escaped. intros f Hin. by apply Hf. }
  assert (sum_list (count_qmarks <$> map (set_item mappings) (__fields__ c))
          = length (__fields__ c)) as Hset.
  { apply sum_set_items. intros f Hin. destruct (Hf f Hin) as [_ Hcol].
    unfold column_of in Hcol. by rewrite Hm in Hcol. }
  rewrite Hsel, Hins, Hupd, Hdel. unfold create_args_string.
  rewrite !count_qmarks_app, !count_qmarks_join, Hesc, Hset, Ht, Hk,
    count_qmarks_question_marks, length_map.
  simpl. repeat split; lia.
Qed.

Lemma canned_placeholders_witness :
  plain_names User
  ∧ count_qmarks (__insert__ User) = 4%nat
  ∧ count_qmarks (__update__ User) = 4%nat
  ∧ count_qmarks (__delete__ User) = 1%nat.
Proof.
  assert (plain_names User) as Hp.
  { split; [reflexivity|]. split; [reflexivity|].
    intros f Hf. simpl in Hf.
    repeat (apply elem_of_cons in Hf as [->|Hf]; [by vm_compute|]).
    by apply elem_of_nil in Hf. }
  destruct (canned_placeholders "User" Model_attrs User_body User User_is_built Hp)
    as (_ & H2 & H3 & H4).
  split; [exact Hp|]. split; [exact H2|]. split; [exact H3|exact H4].
Defined.

(** *** find, findNumber, update, remove *)

Lemma fetch_one pool (rs : list (gmap string pyval)) :
  fetchmany_takes pool → fetchmany pool rs 1 = take 1 rs.
Proof. intros Hf. by rewrite Hf. Qed.

(** X6. [find] with a driver that raises nowhere: one query, the canned
    SELECT with a WHERE on the primary key and the key value as its only
    parameter, one fetch of at most one row; the result is [None] when the
    query has no row, never an error, and otherwise the instance made of the
    first row. *)
Theorem find_first_row pool cls pk w :
  quiet pool →
  fetchmany_takes pool →
  let stmt :=
    EvExecute (replace_qmark (__select__ cls +:+ " where `" +:+ __primary_key__ cls +:+ "`=?"))
              [pk] in
  let result := rows pool (trace w ++ [EvAcquire; EvCursor; stmt]) in
  find pool cls pk w
  = (Ok match result with
        | [] => None
        | r :: _ => Some {| type_of := cls; items := r |}
        end,
     {| lists := lists w;
        trace := trace w ++ [EvAcquire; EvCursor; stmt; EvFetchMany 1;
                             EvCursorClose; EvRelease] |}).
Proof.
  intros Hq Hf stmt result. subst stmt result.
  unfold find, bind. rewrite select_quiet by done. simpl.
  rewrite fetch_one by done. unfold statement. simpl.
  rewrite <- app_assoc. simpl.
  by destruct (rows pool _) as [|r rs].
Qed.

Lemma find_first_row_witness :
  (find two_rows_pool User (PStr "001") world0).1
  = Ok (Some {| type_of := User; items := {[ "id" := PStr "001" ]} |}).
Proof.
  assert (quiet two_rows_pool) as Hq by (intros h ev; reflexivity).
  assert (fetchmany_takes two_rows_pool) as Hf by (intros rs n _; reflexivity).
  exact (f_equal fst (find_first_row two_rows_pool User (PStr "001") world0 Hq Hf)).
Defined.

Lemma string_append_nil (a : string) : a +:+ "" = a.
Proof.
  induction a as [|x a IH]; [done|].
  change (String x (a +:+ "") = String x a). by rewrite IH.
Qed.

Lemma where_clause (base : string) where_ :
  join " " (if truthy_str where_ then [base] ++ ["where"; default "" where_] else [base])
  = base +:+ match where_ with
             | Some cond => if String.eqb cond "" then "" else " where " +:+ cond
             | None => ""
             end.
Proof.
  unfold truthy_str. destruct where_ as [cond|]; simpl.
  - destruct (String.eqb cond ""); simpl; [by rewrite string_append_nil|].
    unfold join. simpl. reflexivity.
  - by rewrite string_append_nil.
Qed.

(** X7. [findNumber] with a driver that raises nowhere: the query is
    'select <expr> __num__ from `<table>`', followed by ' where <where>' only
    for a where that is neither [None] nor empty; the result is [None] when
    the query has no row, the [__num__] entry of the first row when it has
    one, and a KeyError when the first row has no such entry. *)
Theorem findNumber_result pool cls selectField where_ args w :
  quiet pool →
  fetchmany_takes pool →
  let sql :=
    "select " +:+ selectField +:+ " __num__ from `" +:+ __table__ cls +:+ "`"
    +:+ match where_ with
        | Some cond => if String.eqb cond "" then "" else " where " +:+ cond
        | None => ""
        end in
  let result := rows pool (trace w ++ [EvAcquire; EvCursor; statement sql args]) in
  (findNumber pool cls selectField where_ args w).1
  = match result with
    | [] => Ok PNone
    | r :: _ =>
        match r !! "__num__" with
        | Some v => Ok v
        | None => Raise (KeyError "__num__")
        end
    end
  ∧ trace (findNumber pool cls selectField where_ args w).2
    = trace w ++ [EvAcquire; EvCursor; statement sql args; EvFetchMany 1;
                  EvCursorClose; EvRelease].
Proof.
  intros Hq Hf sql result. subst sql result.
  unfold findNumber. cbv zeta. rewrite where_clause, !string_append_assoc.
  unfold bind. rewrite select_quiet by done. simpl.
  rewrite fetch_one by done.
  rewrite <- app_assoc. simpl.
  destruct (rows pool _) as [|r rs]; simpl; [done|].
  by destruct (r !! "__num__").
Qed.

Lemma findNumber_result_witness :
  (findNumber two_rows_pool User "count(id)" (Some "admin=?") (Some [PBool true]) world0).1
  = Raise (KeyError "__num__")
  ∧ trace (findNumber two_rows_pool User "count(id)" (Some "admin=?") (Some [PBool true])
             world0).2
    = [EvAcquire; EvCursor;
       EvExecute "select count(id) __num__ from `users` where admin=%s" [PBool true];
       EvFetchMany 1; EvCursorClose; EvRelease].
Proof.
  assert (quiet two_rows_pool) as Hq by (intros h ev; reflexivity).
  assert (fetchmany_takes two_rows_pool) as Hf by (intros rs n _; reflexivity).
  exact (findNumber_result two_rows_pool User "count(id)" (Some "admin=?")
           (Some [PBool true]) world0 Hq Hf).
Defined.

Lemma mapM_getValue keys self :
  mapM getValue keys self = (Ok (map (fun k => getattr self k PNone) keys), self).
Proof.
  induction keys as [|k keys IH]; [done|].
  simpl. unfold bind, ret. unfold getValue at 1. by rewrite IH.
Qed.

(** X8. [update] reads the instance and does not change it: the
    parameters of the canned UPDATE are the values [getattr] reads for the
    non-key fields, in order, followed by that of the key; no default is
    applied, so a field that is not set is passed as [None], also when its
    Field has a default. *)
Theorem update_passes_values pool self w :
  let cls := type_of self in
  let args := map (fun k => getattr self k PNone) (__fields__ cls ++ [__primary_key__ cls]) in
  update pool (self, w)
  = match execute pool (__update__ cls) (Some args) true w with
    | (Ok _, w') => (Ok tt, (self, w'))
    | (Raise e, w') => (Raise e, (self, w'))
    end
  ∧ length args = S (length (__fields__ cls))
  ∧ ∀ i k, __fields__ cls !! i = Some k →
      class_getattr cls k = None → items self !! k = None →
      args !! i = Some PNone.
Proof.
  intros cls args. subst cls args. split; [|split].
  - unfold update, bind, ret, on_fst, on_snd. simpl.
    rewrite mapM_getValue. simpl. unfold getValue. simpl.
    rewrite map_app. simpl.
    by destruct (execute pool _ _ true w) as [[n|e] w'].
  - rewrite length_map, length_app. simpl. lia.
  - intros i k Hi Hcls Hitem.
    change (map ?f ?l) with (f <$> l).
    rewrite list_lookup_fmap, lookup_app_l by (by eapply lookup_lt_Some).
    rewrite Hi. simpl. unfold getattr. by rewrite Hcls, Hitem.
Qed.

(** X9. The affected-row count is not checked: with a driver that raises
    nowhere, [save] (on a class as the metaclass builds it), [update] and
    [remove] return normally whatever count the driver reports, zero
    included.  [remove] executes the canned DELETE with the key value as its
    only parameter and leaves the instance as it is. *)
Theorem row_count_not_checked pool self w :
  quiet pool →
  well_formed (type_of self) →
  (save pool (self, w)).1 = Ok tt
  ∧ (update pool (self, w)).1 = Ok tt
  ∧ remove pool (self, w)
    = (Ok tt,
       (self,
        {| lists := lists w;
           trace := trace w ++ [EvAcquire; EvCursor;
                                EvExecute (replace_qmark (__delete__ (type_of self)))
                                          [getattr self (__primary_key__ (type_of self)) PNone];
                                EvCursorClose; EvRelease] |})).
Proof.
  intros Hq [Hnd Hmap]. split; [|split].
  - apply NoDup_app in Hnd as (Hndf & _ & _).
    destruct (mapM_getValueOrDefault (__fields__ (type_of self)) self Hndf)
      as (vs & s1 & Hmapm & Hty & _).
    { intros k Hk. apply Hmap. apply elem_of_app. by left. }
    destruct (getValueOrDefault_frame s1 (__primary_key__ (type_of self)))
      as (pk & s2 & Hgetpk & _).
    { rewrite Hty. apply Hmap. apply elem_of_app. right. by apply list_elem_of_singleton. }
    unfold save, bind, ret, on_fst, on_snd. simpl.
    rewrite Hmapm. simpl. rewrite Hgetpk. simpl.
    by rewrite execute_quiet.
  - unfold update, bind, ret, on_fst, on_snd. simpl.
    rewrite mapM_getValue. simpl. unfold getValue. simpl.
    by rewrite execute_quiet.
  - unfold remove, bind, ret, on_fst, on_snd, getValue. simpl.
    rewrite execute_quiet by done. simpl. unfold statement. simpl.
    rewrite <- app_assoc. reflexivity.
Qed.

Lemma row_count_not_checked_witness :
  let u := {| type_of := User; items := {[ "id" := PStr "001" ]} |} in
  let nothing_affected :=
    {| raises := fun _ _ => None; rowcount := fun _ => 0; rows := fun _ => [];
       fetchmany := fun rs n => take (Z.to_nat n) rs |} in
  (save nothing_affected (u, world0)).1 = Ok tt
  ∧ (update nothing_affected (u, world0)).1 = Ok tt
  ∧ (remove nothing_affected (u, world0)).1 = Ok tt.
Proof.
  intros u nothing_affected.
  assert (quiet nothing_affected) as Hq by (intros h ev; reflexivity).
  assert (well_formed User) as Hwf.
  { apply (ModelMetaclass_well_formed "User" Model_attrs User_body).
    - exact User_is_built.
    - apply (bool_decide_unpack _). vm_compute. exact I. }
  destruct (row_count_not_checked nothing_affected u world0 Hq Hwf) as (H1 & H2 & H3).
  split; [exact H1|]. split; [exact H2|]. by rewrite H3.
Defined.

(** X25. [save] makes the key of a new instance: when the value read for
    the primary key is [None] and its Field has a default (a producer of ids,
    say), the default is what the INSERT gets as its last parameter, and it
    is stored in the instance under the key. *)
Theorem save_fills_key pool self w field :
  let cls := type_of self in
  well_formed cls →
  __mappings__ cls !! __primary_key__ cls = Some field →
  is_None (Field.default field) = false →
  getattr self (__primary_key__ cls) PNone = PNone →
  ∃ args self',
    last args = Some (default_value field)
    ∧ length args = S (length (__fields__ cls))
    ∧ items self' !! __primary_key__ cls = Some (default_value field)
    ∧ save pool (self, w)
      = match execute pool (__insert__ cls) (Some args) true w with
        | (Ok _, w') => (Ok tt, (self', w'))
        | (Raise e, w') => (Raise e, (self', w'))
        end.
Proof.
  intros cls [Hnd Hmap] Hfield Hdef Hval. subst cls.
  apply NoDup_app in Hnd as (Hndf & Hpk & _).
  destruct (mapM_getValueOrDefault (__fields__ (type_of self)) self Hndf)
    as (vs & s1 & Hmapm & Hty & Hframe & _).
  { intros k Hk. apply Hmap. apply elem_of_app. by left. }
  assert (__primary_key__ (type_of self) ∉ __fields__ (type_of self)) as Hnotin.
  { intros Hin. apply (Hpk _ Hin). by apply list_elem_of_singleton. }
  assert (getattr s1 (__primary_key__ (type_of self)) PNone = PNone) as Hval1.
  { unfold getattr in *. by rewrite Hty, (Hframe _ Hnotin). }
  pose proof (getValueOrDefault_default s1 (__primary_key__ (type_of self)) field) as Hget.
  rewrite Hty in Hget. specialize (Hget Hfield Hdef Hval1).
  exists (vs ++ [default_value field]),
    {| type_of := type_of self;
       items := <[__primary_key__ (type_of self) := default_value field]> (items s1) |}.
  split; [|split; [|split]].
  - by rewrite last_snoc.
  - rewrite length_app, (mapM_getValueOrDefault_length _ _ _ _ Hmapm). simpl. lia.
  - simpl. apply lookup_insert_eq.
  - unfold save, bind, ret, on_fst, on_snd. simpl.
    rewrite Hmapm. simpl. rewrite Hget. simpl.
    by destruct (execute pool (__insert__ (type_of self))
                   (Some (vs ++ [default_value field])) true w) as [[n|e] w'].
Qed.

Lemma save_fills_key_witness :
  let u := {| type_of := User; items := {[ "email" := PStr "a@b.c" ]} |} in
  ∃ args self',
    last args = Some (PStr "001")
    ∧ items self' !! "id" = Some (PStr "001")
    ∧ save two_rows_pool (u, world0)
      = match execute two_rows_pool (__insert__ User) (Some args) true world0 with
        | (Ok _, w') => (Ok tt, (self', w'))
        | (Raise e, w') => (Raise e, (self', w'))
        end.
Proof.
  intros u.
  assert (well_formed User) as Hwf.
  { apply (ModelMetaclass_well_formed "User" Model_attrs User_body).
    - exact User_is_built.
    - apply (bool_decide_unpack _). vm_compute. exact I. }
  destruct (save_fills_key two_rows_pool u world0 User_id Hwf)
    as (args & self' & H1 & _ & H3 & H4);
    [reflexivity | reflexivity | by vm_compute |].
  exists args, self'. auto.
Defined.

(** *** Writing and reading an attribute *)

(** X26. On an instance of a class the metaclass built, for the name of a
    Field that is none of the metadata names: [setattr] writes into the dict
    and leaves what is read under every other name as it was.  When the bases
    have no attribute of that name the value written is the value [getValue]
    reads, and [getValueOrDefault] returns a value other than [None] without
    applying the default or touching the instance.  When the bases do have
    one (a method of dict or of Model, say), it is what [getValue] reads,
    whatever was written. *)
Theorem field_round_trip name bases attrs self key v :
  ModelMetaclass.__new__ name bases attrs = Ok (Mapped (type_of self)) →
  is_Some (__mappings__ (type_of self) !! key) →
  key ∉ (metadata (type_of self)).*1 →
  let self' := (setattr key v self).2 in
  match bases !! key with
  | None =>
      (getValue key self').1 = Ok v
      ∧ (v ≠ PNone → getValueOrDefault key self' = (Ok v, self'))
  | Some inherited => (getValue key self').1 = Ok inherited
  end
  ∧ ∀ k, k ≠ key → getattr self' k PNone = getattr self k PNone.
Proof.
  intros Hnew Hfield Hmeta self'. subst self'.
  destruct (ModelMetaclass_new_inv _ _ _ _ Hnew)
    as (mappings & pk & _ & Hm & _ & _ & Hb & Hrest & _).
  assert (class_getattr (type_of self) key = bases !! key) as Hcls.
  { unfold class_getattr. rewrite (assoc_None _ _ Hmeta).
    rewrite assoc_None; [by rewrite Hb|].
    unfold namespace. intros ([k a] & -> & Hin)%list_elem_of_fmap.
    apply list_elem_of_filter in Hin as [_ Hin]. rewrite Hrest in Hin.
    apply list_elem_of_filter in Hin as [Hnone _]. simpl in *.
    rewrite Hm in Hfield. rewrite Hnone in Hfield. by destruct Hfield. }
  split.
  - destruct (bases !! key) as [inherited|] eqn:Hbase.
    + unfold getValue, setattr, getattr. simpl. by rewrite Hcls.
    + assert (getattr (setattr key v self).2 key PNone = v) as Hread.
      { unfold setattr, getattr. simpl. by rewrite Hcls, lookup_insert_eq. }
      split.
      * unfold getValue. cbn [fst]. by rewrite Hread.
      * intros Hv. unfold getValueOrDefault. rewrite Hread.
        by destruct v.
  - intros k Hk. unfold setattr, getattr. simpl.
    by rewrite lookup_insert_ne.
Qed.

(** Of the two names a class statement adds to the class body,
    [__module__] is an attribute an instance finds and [__qualname__] is
    not. *)
Example module_and_qualname :
  let u := {| type_of := User; items := {[ "id" := PStr "001" ]} |} in
  getattr u "__module__" PNone = PStr "models"
  ∧ getattr u "__qualname__" PNone = PNone.
Proof. vm_compute. split; reflexivity. Qed.

Lemma field_round_trip_witness :
  let u := {| type_of := User; items := {[ "id" := PStr "001" ]} |} in
  let u' := (setattr "email" (PStr "a@b.c") u).2 in
  (getValue "email" u').1 = Ok (PStr "a@b.c")
  ∧ getattr u' "id" PNone = getattr u "id" PNone.
Proof.
  intros u u'.
  assert ("email" ∉ (metadata User).*1) as Hmeta
    by (apply (bool_decide_unpack _); vm_compute; exact I).
  destruct (field_round_trip "User" Model_attrs User_body u "email" (PStr "a@b.c")
              User_is_built (ex_intro _ User_email eq_refl) Hmeta) as [[Hread _] Hframe].
  split; [exact Hread|]. apply Hframe. discriminate.
Defined.

End OrmModelMore.

(* ===================================================================== *)
(** ** Properties of www/coroweb.py *)
(* ===================================================================== *)

Module CorowebProps.
Import Py Web Coroweb WebVocabulary Samples.

(** C3. The handler declares [(id, *, name, request)]; the request is a
    POST with Content-Type application/json, body
    [{"name": "x", "extra": "y"}] and path variable [id].  The handler is
    registered without error and is called with exactly [name], [id] and
    [request]: [extra] is not passed on, the path variable is merged in, and
    the request object goes under 'request'.  What the call gives is what
    [__call__] returns. *)
Theorem call_with_declared_arguments parse_qs_items body id :
  let fn := view body in
  let request :=
    json_post (PDict {[ "name" := PStr "x"; "extra" := PStr "y" ]}) id in
  let kw : gmap string kwarg :=
    {[ "name" := KVal (PStr "x"); "id" := KVal id; "request" := KRequest request ]} in
  ∃ h,
    RequestHandler_.__init__ fn = Ok h
    ∧ _has_var_kw_arg h = false
    ∧ _named_kw_args h = ["name"; "request"]
    ∧ invoked (__call__ parse_qs_items h request) = Some kw
    ∧ kw !! "extra" = None
    ∧ returned (__call__ parse_qs_items h request)
      = match body kw with
        | Raise (APIError error data message) =>
            Ok (RValue (PDict {[ "error" := error; "data" := data; "message" := message ]}))
        | r => r
        end.
Proof.
  intros fn request kw.
  set (h := {| _func := fn; _has_request_arg := true; _has_var_kw_arg := false;
               _has_named_kw_args := true; _named_kw_args := ["name"; "request"];
               _required_kw_args := ["name"; "request"] |}).
  assert (assemble parse_qs_items h request = Continue kw) as Hkw
    by (vm_compute; reflexivity).
  exists h. split; [reflexivity|].
  split; [reflexivity|]. split; [reflexivity|].
  split; [|split; [by vm_compute|]].
  - unfold __call__. rewrite Hkw. reflexivity.
  - unfold __call__. rewrite Hkw. simpl.
    destruct (body kw) as [r|[]]; reflexivity.
Qed.

(** The first required name that is missing, when one is. *)
Lemma first_missing_Some names (kw : gmap string kwarg) name :
  name ∈ names → kw !! name = None →
  ∃ name', first_missing names kw = Some name' ∧ name' ∈ names ∧ kw !! name' = None.
Proof.
  induction names as [|n names IH]; intros Hin Hkw.
  - by apply elem_of_nil in Hin.
  - simpl. destruct (kw !! n) eqn:Hn.
    + apply elem_of_cons in Hin as [->|Hin]; [congruence|].
      destruct (IH Hin Hkw) as (name' & ? & ? & ?).
      exists name'. split; [done|]. split; [|done]. apply elem_of_cons. by right.
    + exists n. split; [done|]. split; [|done]. apply elem_of_cons. by left.
Qed.

Lemma first_missing_None names (kw : gmap string kwarg) :
  (∀ name, name ∈ names → is_Some (kw !! name)) → first_missing names kw = None.
Proof.
  induction names as [|n names IH]; intros Hall; [done|]. simpl.
  destruct (Hall n) as [v ->]; [apply elem_of_cons; by left|].
  apply IH. intros name Hin. apply Hall. apply elem_of_cons. by right.
Qed.

(** Registration records the required names of the signature. *)
Lemma init_required fn h :
  RequestHandler_.__init__ fn = Ok h →
  _func h = fn ∧ _required_kw_args h = get_required_kw_args fn.
Proof.
  unfold RequestHandler_.__init__. destruct (has_request_arg fn); [|done].
  by intros [= <-].
Qed.

Lemma elem_of_required fn name :
  name ∈ get_required_kw_args fn
  ↔ ∃ p, p ∈ parameters fn ∧ required p ∧ p_name p = name.
Proof.
  unfold get_required_kw_args, required. rewrite list_elem_of_fmap. split.
  - intros (p & -> & Hin). apply list_elem_of_filter in Hin as [[Hk Hd] Hin].
    exists p. split; [done|]. split; [|done]. split; [|done].
    by destruct (p_kind p).
  - intros (p & Hin & [Hk Hd] & <-). exists p. split; [done|].
    apply list_elem_of_filter. split; [|done]. split; [|done]. by rewrite Hk.
Qed.

(** C7. For a registered handler, once the arguments are assembled: if a
    keyword-only parameter without default is not among them, the view
    function is not called and [__call__] returns a 400 response whose text
    is 'Missing argument: ' followed by the name of such a parameter (the
    first one in the signature that is missing). *)
Theorem missing_required_argument parse_qs_items fn h request kw p :
  RequestHandler_.__init__ fn = Ok h →
  assemble parse_qs_items h request = Continue kw →
  p ∈ parameters fn →
  required p →
  kw !! p_name p = None →
  ∃ q,
    q ∈ parameters fn ∧ required q ∧ kw !! p_name q = None
    ∧ __call__ parse_qs_items h request
      = {| invoked := None;
           returned := Ok (RResponse (HTTPBadRequest ("Missing argument: " +:+ p_name q))) |}
    ∧ status (HTTPBadRequest ("Missing argument: " +:+ p_name q)) = 400.
Proof.
  intros Hinit Hkw Hp Hreq Hmiss.
  destruct (init_required fn h Hinit) as [_ Hnames].
  assert (p_name p ∈ _required_kw_args h) as Hin.
  { rewrite Hnames. apply elem_of_required. eauto. }
  destruct (first_missing_Some _ kw _ Hin Hmiss) as (name & Hfirst & Hname & Hnone).
  rewrite Hnames in Hname. apply elem_of_required in Hname as (q & Hq & Hrq & <-).
  exists q. split; [done|]. split; [done|]. split; [done|]. split; [|done].
  unfold __call__. rewrite Hkw, Hfirst. reflexivity.
Qed.

(** The other way round: with every required name present the view
    function is called, with the assembled arguments. *)
Lemma no_missing_argument parse_qs_items h request kw :
  assemble parse_qs_items h request = Continue kw →
  (∀ name, name ∈ _required_kw_args h → is_Some (kw !! name)) →
  invoked (__call__ parse_qs_items h request) = Some kw.
Proof.
  intros Hkw Hall. unfold __call__. rewrite Hkw, (first_missing_None _ _ Hall). done.
Qed.

(** A GET without query string to the sample view: nothing binds [name]. *)
Example missing_name :
  ∃ h, RequestHandler_.__init__ (view echo) = Ok h
       ∧ __call__ no_query h plain_get
         = {| invoked := None;
              returned := Ok (RResponse (HTTPBadRequest "Missing argument: name")) |}.
Proof. eexists. split; [reflexivity|]. vm_compute. reflexivity. Qed.

Lemma missing_required_argument_witness :
  ∃ h kw q,
    RequestHandler_.__init__ (view echo) = Ok h
    ∧ assemble no_query h plain_get = Continue kw
    ∧ q ∈ parameters (view echo) ∧ required q ∧ kw !! p_name q = None
    ∧ __call__ no_query h plain_get
      = {| invoked := None;
           returned := Ok (RResponse (HTTPBadRequest ("Missing argument: " +:+ p_name q))) |}.
Proof.
  pose (h := {| _func := view echo; _has_request_arg := true; _has_var_kw_arg := false;
                _has_named_kw_args := true; _named_kw_args := ["name"; "request"];
                _required_kw_args := ["name"; "request"] |}).
  pose (kw := ({[ "request" := KRequest plain_get ]} : gmap string kwarg)).
  pose (p := {| p_name := "name"; p_kind := KEYWORD_ONLY; p_default := None |}).
  assert (RequestHandler_.__init__ (view echo) = Ok h) as H1 by reflexivity.
  assert (assemble no_query h plain_get = Continue kw) as H2 by (vm_compute; reflexivity).
  assert (p ∈ parameters (view echo)) as H3
    by (apply list_elem_of_further, list_elem_of_here).
  assert (required p) as H4 by (split; reflexivity).
  assert (kw !! p_name p = None) as H5 by (vm_compute; reflexivity).
  destruct (missing_required_argument no_query (view echo) h plain_get kw p H1 H2 H3 H4 H5)
    as (q & Hq & Hrq & Hmiss & Hcall & _).
  exists h, kw, q. auto 10.
Defined.

End CorowebProps.

(* ===================================================================== *)
(** ** More on www/coroweb.py *)
(* ===================================================================== *)

Module CorowebMore.
Import Py Web Coroweb WebVocabulary Samples CorowebProps.

(** *** The 'request' parameter *)

Lemma positional_test p :
  positional p
  = negb (kind_eqb (p_kind p) VAR_POSITIONAL)
    && negb (kind_eqb (p_kind p) KEYWORD_ONLY)
    && negb (kind_eqb (p_kind p) VAR_KEYWORD).
Proof. unfold positional. by destruct (p_kind p). Qed.

(** The loop, from any state: [found] says whether a parameter named
    'request' was passed already. *)
Lemma request_arg_loop_spec fn params :
  ∀ found,
    match request_arg_loop fn params found with
    | Ok r =>
        (r = true ↔ found = true ∨ "request" ∈ p_name <$> params)
        ∧ (found = true → ∀ q, q ∈ params → p_name q ≠ "request" → positional q = false)
        ∧ ¬ request_misplaced params
    | Raise e =>
        e = request_error fn
        ∧ ((found = true ∧ ∃ q, q ∈ params ∧ p_name q ≠ "request" ∧ positional q = true)
           ∨ request_misplaced params)
    end.
Proof.
  induction params as [|p params IH]; intros found; cbn [request_arg_loop].
  - split; [|split].
    + rewrite fmap_nil. split; [by left|]. intros [?|Hin]; [done|].
      by apply elem_of_nil in Hin.
    + intros _ q Hq. by apply elem_of_nil in Hq.
    + intros (pre & p & post & q & Heq & _). by destruct pre.
  - destruct (String.eqb_spec (p_name p) "request") as [Hreq|Hreq].
    + specialize (IH true). destruct (request_arg_loop fn params true) as [r|e].
      * destruct IH as (Hr & Hpos & Hmis). split; [|split].
        -- split; [intros _; right; rewrite fmap_cons; apply elem_of_cons; by left|].
           intros _. apply Hr. by left.
        -- intros _ q Hq Hne. apply elem_of_cons in Hq as [->|Hq]; [done|].
           by apply Hpos.
        -- intros (pre & p' & post & q & Heq & Hp' & Hq & Hne & Hposq).
           destruct pre as [|x pre]; simpl in Heq; injection Heq as -> ->.
           ++ rewrite (Hpos eq_refl q Hq Hne) in Hposq. done.
           ++ apply Hmis. by exists pre, p', post, q.
      * destruct IH as (-> & [[_ (q & Hq & Hne & Hposq)]|Hmis]).
        -- split; [done|]. right. by exists [], p, params, q.
        -- split; [done|]. right.
           destruct Hmis as (pre & p' & post & q & -> & ? & ? & ? & ?).
           by exists (p :: pre), p', post, q.
    + rewrite <- positional_test.
      destruct found; cbn [andb].
      * destruct (positional p) eqn:Hp.
        -- split; [done|]. left. split; [done|]. exists p. split; [|done].
           apply elem_of_cons. by left.
        -- specialize (IH true). destruct (request_arg_loop fn params true) as [r|e].
           ++ destruct IH as (Hr & Hpos & Hmis). split; [|split].
              ** split; [by left|]. intros _. apply Hr. by left.
              ** intros _ q Hq Hne. apply elem_of_cons in Hq as [->|Hq]; [done|].
                 by apply Hpos.
              ** intros (pre & p' & post & q & Heq & Hp' & Hq & Hne & Hposq).
                 destruct pre as [|x pre]; simpl in Heq; injection Heq as -> ->; [done|].
                 apply Hmis. by exists pre, p', post, q.
           ++ destruct IH as (-> & [[_ (q & Hq & Hne & Hposq)]|Hmis]).
              ** split; [done|]. left. split; [done|]. exists q. split; [|done].
                 apply elem_of_cons. by right.
              ** split; [done|]. right.
                 destruct Hmis as (pre & p' & post & q & -> & ? & ? & ? & ?).
                 by exists (p :: pre), p', post, q.
      * specialize (IH false). destruct (request_arg_loop fn params false) as [r|e].
        -- destruct IH as (Hr & _ & Hmis). split; [|split].
           ++ rewrite Hr, fmap_cons. split.
              ** intros [?|Hin]; [done|]. right. apply elem_of_cons. by right.
              ** intros [?|Hin]; [done|]. apply elem_of_cons in Hin as [?|Hin]; [done|].
                 by right.
           ++ done.
           ++ intros (pre & p' & post & q & Heq & Hp' & Hq & Hne & Hposq).
              destruct pre as [|x pre]; simpl in Heq; injection Heq as -> ->; [done|].
              apply Hmis. by exists pre, p', post, q.
        -- destruct IH as (-> & [[? _]|Hmis]); [done|].
           split; [done|]. right.
           destruct Hmis as (pre & p' & post & q & -> & ? & ? & ? & ?).
           by exists (p :: pre), p', post, q.
Qed.

(** X10. [has_request_arg] raises ValueError exactly when a parameter
    named 'request' is followed, at any distance, by a positional parameter
    of another name; otherwise it tells whether a parameter is named
    'request'.  Keyword-only parameters, [*args] and [**kw] may follow. *)
Theorem has_request_arg_spec fn :
  match has_request_arg fn with
  | Ok found =>
      ¬ request_misplaced (parameters fn)
      ∧ (found = true ↔ "request" ∈ p_name <$> parameters fn)
  | Raise e =>
      request_misplaced (parameters fn) ∧ e = request_error fn
  end.
Proof.
  unfold has_request_arg.
  pose proof (request_arg_loop_spec fn (parameters fn) false) as H.
  destruct (request_arg_loop fn (parameters fn) false) as [r|e].
  - destruct H as (Hr & _ & Hmis). split; [done|]. rewrite Hr.
    split; [by intros [?|?]|by right].
  - destruct H as (-> & [[? _]|Hmis]); done.
Qed.

(** A signature [(request, id)] cannot be registered. *)
Example request_before_positional :
  RequestHandler_.__init__
    {| __name__ := "blog";
       parameters := [ {| p_name := "request"; p_kind := POSITIONAL_OR_KEYWORD; p_default := None |};
                       {| p_name := "id"; p_kind := POSITIONAL_OR_KEYWORD; p_default := None |} ];
       await_call := echo |}
  = Raise (ValueError
             (SCat (SLit "request parameter must be the last named parameter in function: blog")
                   (SStr (PObj "Signature")))).
Proof. reflexivity. Qed.

(** *** The assembled arguments *)

(** The whitelist keeps the entries under the declared names and nothing
    else. *)
Lemma keep_named_lookup names (kw : gmap string kwarg) k :
  keep_named names kw !! k = if decide (k ∈ names) then kw !! k else None.
Proof.
  unfold keep_named.
  assert (∀ acc : gmap string kwarg,
            foldl (fun copy name =>
                     match kw !! name with
                     | Some v => <[name := v]> copy
                     | None => copy
                     end) acc names !! k
            = if decide (k ∈ names)
              then match kw !! k with Some v => Some v | None => acc !! k end
              else acc !! k) as Hgen.
  { induction names as [|n names IH]; intros acc; cbn [foldl].
    - by rewrite decide_False by apply not_elem_of_nil.
    - rewrite IH. destruct (decide (k ∈ names)) as [Hin|Hnin].
      + rewrite decide_True by (apply elem_of_cons; by right).
        destruct (kw !! k) eqn:Hk; [done|].
        destruct (kw !! n) eqn:Hn; [|done].
        rewrite lookup_insert_ne; [done|]. intros ->. congruence.
      + destruct (decide (n = k)) as [->|Hne].
        * rewrite decide_True by (apply elem_of_cons; by left).
          destruct (kw !! k) eqn:Hk; [by rewrite lookup_insert_eq|done].
        * rewrite decide_False
            by (intros [?|?]%elem_of_cons; [by subst|done]).
          destruct (kw !! n); [by rewrite lookup_insert_ne|done]. }
  rewrite Hgen, lookup_empty. by destruct (decide (k ∈ names)), (kw !! k).
Qed.

(** The path variables go over what was there under the same name. *)
Lemma merge_match_info_lookup (match_info : gmap string pyval) (kw : gmap string kwarg) k :
  merge_match_info match_info kw !! k
  = match match_info !! k with
    | Some v => Some (KVal v)
    | None => kw !! k
    end.
Proof.
  unfold merge_match_info. revert k.
  apply (map_fold_weak_ind
           (fun (r : gmap string kwarg) (m : gmap string pyval) =>
              ∀ k, r !! k = match m !! k with Some v => Some (KVal v) | None => kw !! k end)).
  - intros k. by rewrite lookup_empty.
  - intros i x m r Hi IH k. destruct (decide (i = k)) as [->|Hne].
    + by rewrite !lookup_insert_eq.
    + by rewrite !lookup_insert_ne.
Qed.

(** The names of the signature that are keyword-only. *)
Lemma required_named fn name :
  name ∈ get_required_kw_args fn → name ∈ get_named_kw_args fn.
Proof.
  unfold get_required_kw_args, get_named_kw_args. rewrite !list_elem_of_fmap.
  intros (p & -> & Hin). exists p. split; [done|].
  apply list_elem_of_filter in Hin as [[Hk _] Hin]. by apply list_elem_of_filter.
Qed.

Lemma init_fields fn h :
  RequestHandler_.__init__ fn = Ok h →
  _named_kw_args h = get_named_kw_args fn
  ∧ _required_kw_args h = get_required_kw_args fn
  ∧ _has_named_kw_args h = has_named_kw_args fn
  ∧ _has_var_kw_arg h = has_var_kw_arg fn.
Proof.
  unfold RequestHandler_.__init__. destruct (has_request_arg fn); [|done].
  by intros [= <-].
Qed.

(** [assemble], once the body and the query string are read. *)
Lemma assemble_after_read parse_qs_items h request params :
  read_params parse_qs_items h request = Continue params →
  assemble parse_qs_items h request
  = Continue
      (let kw :=
         match params with
         | None => KVal <$> match_info request
         | Some kw =>
             merge_match_info (match_info request)
               (if negb (_has_var_kw_arg h) && _has_named_kw_args h
                then keep_named (_named_kw_args h) kw else kw)
         end in
       if _has_request_arg h then <["request" := KRequest request]> kw else kw).
Proof. intros Hread. unfold assemble. by rewrite Hread. Qed.

Lemma assemble_inv parse_qs_items h request kw :
  assemble parse_qs_items h request = Continue kw →
  ∃ params, read_params parse_qs_items h request = Continue params.
Proof.
  unfold assemble. destruct (read_params parse_qs_items h request); [eauto|done|done].
Qed.

(** X11. A handler without [**kw] is never handed a name it does not
    declare: every assembled argument is under a keyword-only name of the
    handler, under the name of a path variable, or is the request object
    under 'request'. *)
Theorem assembled_names_declared parse_qs_items h request kw k :
  _has_var_kw_arg h = false →
  assemble parse_qs_items h request = Continue kw →
  is_Some (kw !! k) →
  k ∈ _named_kw_args h
  ∨ is_Some (match_info request !! k)
  ∨ (k = "request" ∧ _has_request_arg h = true).
Proof.
  intros Hvar Hkw Hk.
  destruct (assemble_inv _ _ _ _ Hkw) as [params Hread].
  rewrite (assemble_after_read _ _ _ _ Hread) in Hkw. injection Hkw as <-.
  assert (∀ kw0 : gmap string kwarg,
            is_Some ((if _has_request_arg h then <["request" := KRequest request]> kw0
                      else kw0) !! k) →
            is_Some (kw0 !! k) ∨ (k = "request" ∧ _has_request_arg h = true)) as Hreq.
  { intros kw0. destruct (_has_request_arg h); [|by left].
    destruct (decide (k = "request")) as [->|Hne]; [by right|].
    rewrite lookup_insert_ne by done. by left. }
  apply Hreq in Hk as [Hk|?]; [|by auto]. clear Hreq.
  destruct params as [kw0|].
  - rewrite merge_match_info_lookup in Hk.
    destruct (match_info request !! k) eqn:Hmi; [by eauto|].
    rewrite Hvar in Hk. simpl in Hk.
    destruct (_has_named_kw_args h) eqn:Hnamed.
    + rewrite keep_named_lookup in Hk.
      destruct (decide (k ∈ _named_kw_args h)); [by left|]. by destruct Hk.
    + unfold read_params in Hread. rewrite Hvar, Hnamed in Hread. done.
  - rewrite lookup_fmap in Hk. right. left.
    destruct (match_info request !! k); [by eauto|]. by destruct Hk.
Qed.

Lemma assembled_names_declared_witness :
  ∃ h kw,
    RequestHandler_.__init__ (view echo) = Ok h
    ∧ assemble no_query h
        (json_post (PDict {[ "name" := PStr "x"; "extra" := PStr "y" ]}) (PStr "42"))
      = Continue kw
    ∧ is_Some (kw !! "name")
    ∧ ("name" ∈ _named_kw_args h
       ∨ is_Some (match_info
                    (json_post (PDict {[ "name" := PStr "x"; "extra" := PStr "y" ]})
                               (PStr "42")) !! "name")
       ∨ ("name" = "request" ∧ _has_request_arg h = true)).
Proof.
  pose (h := {| _func := view echo; _has_request_arg := true; _has_var_kw_arg := false;
                _has_named_kw_args := true; _named_kw_args := ["name"; "request"];
                _required_kw_args := ["name"; "request"] |}).
  pose (request := json_post (PDict {[ "name" := PStr "x"; "extra" := PStr "y" ]}) (PStr "42")).
  pose (kw := ({[ "name" := KVal (PStr "x"); "id" := KVal (PStr "42");
                  "request" := KRequest request ]} : gmap string kwarg)).
  assert (_has_var_kw_arg h = false) as H1 by reflexivity.
  assert (assemble no_query h request = Continue kw) as H2 by (vm_compute; reflexivity).
  assert (is_Some (kw !! "name")) as H3 by (vm_compute; eauto).
  exists h, kw. split; [reflexivity|]. split; [exact H2|]. split; [exact H3|].
  exact (assembled_names_declared no_query h request kw "name" H1 H2 H3).
Defined.

(** X12. Precedence among the sources of an argument: when the handler
    takes the request, 'request' is the request object whatever the body, the
    query string or the path gave under that name; under any other name a
    path variable is passed as the path gave it, whatever the body or the
    query string gave under that name. *)
Theorem assembled_precedence parse_qs_items h request kw :
  assemble parse_qs_items h request = Continue kw →
  (_has_request_arg h = true → kw !! "request" = Some (KRequest request))
  ∧ ∀ k v, match_info request !! k = Some v →
      k ≠ "request" ∨ _has_request_arg h = false →
      kw !! k = Some (KVal v).
Proof.
  intros Hkw.
  destruct (assemble_inv _ _ _ _ Hkw) as [params Hread].
  rewrite (assemble_after_read _ _ _ _ Hread) in Hkw. injection Hkw as <-.
  split.
  - intros ->. apply lookup_insert_eq.
  - intros k v Hmi Hk.
    assert (∀ kw0 : gmap string kwarg,
              kw0 !! k = Some (KVal v) →
              (if _has_request_arg h then <["request" := KRequest request]> kw0 else kw0) !! k
              = Some (KVal v)) as Hreq.
    { intros kw0 H0. destruct (_has_request_arg h); [|done].
      rewrite lookup_insert_ne; [done|]. destruct Hk as [?|?]; [congruence|done]. }
    apply Hreq. destruct params as [kw0|].
    + by rewrite merge_match_info_lookup, Hmi.
    + by rewrite lookup_fmap, Hmi.
Qed.

Lemma assembled_precedence_witness :
  ∃ h kw,
    assemble no_query h (json_post (PDict {[ "id" := PStr "body"; "request" := PInt 0 ]})
                                   (PStr "42")) = Continue kw
    ∧ kw !! "request"
      = Some (KRequest (json_post (PDict {[ "id" := PStr "body"; "request" := PInt 0 ]})
                                  (PStr "42")))
    ∧ kw !! "id" = Some (KVal (PStr "42")).
Proof.
  pose (fn := {| __name__ := "view";
                 parameters := [ {| p_name := "request"; p_kind := POSITIONAL_OR_KEYWORD;
                                    p_default := None |};
                                 {| p_name := "kw"; p_kind := VAR_KEYWORD;
                                    p_default := None |} ];
                 await_call := echo |}).
  pose (h := {| _func := fn; _has_request_arg := true; _has_var_kw_arg := true;
                _has_named_kw_args := false; _named_kw_args := [];
                _required_kw_args := [] |}).
  pose (request := json_post (PDict {[ "id" := PStr "body"; "request" := PInt 0 ]})
                             (PStr "42")).
  destruct (assemble no_query h request) as [kw| |] eqn:Hkw;
    [|by vm_compute in Hkw|by vm_compute in Hkw].
  destruct (assembled_precedence no_query h request kw Hkw) as [H1 H2].
  exists h, kw. split; [exact Hkw|]. split; [exact (H1 eq_refl)|].
  apply H2; [reflexivity|]. left. discriminate.
Defined.

(** *** Reading the request *)

(** X13. A handler that declares neither keyword-only parameters nor
    [**kw] never reads the body or the query string: whatever the method,
    the Content-Type and the body of the request, the arguments are the path
    variables, with the request object under 'request' when the handler
    takes it, and the view function is called unless a required name is
    missing (there is none to be missing for a handler registered by
    [__init__]). *)
Theorem body_not_read parse_qs_items fn h request :
  RequestHandler_.__init__ fn = Ok h →
  reads_parameters h = false →
  let kw := KVal <$> match_info request in
  let kw := if _has_request_arg h then <["request" := KRequest request]> kw else kw in
  assemble parse_qs_items h request = Continue kw
  ∧ invoked (__call__ parse_qs_items h request) = Some kw.
Proof.
  intros Hinit Hreads kw kw'. subst kw kw'.
  unfold reads_parameters in Hreads.
  assert (assemble parse_qs_items h request
          = Continue (if _has_request_arg h
                      then <["request" := KRequest request]> (KVal <$> match_info request)
                      else KVal <$> match_info request)) as Hkw.
  { unfold assemble, read_params. by rewrite Hreads. }
  split; [exact Hkw|].
  apply no_missing_argument; [exact Hkw|].
  destruct (init_fields fn h Hinit) as (Hnamed & Hreq & Hhas & _).
  apply orb_false_iff in Hreads as [_ Hnone]. rewrite Hhas in Hnone.
  intros name Hname. rewrite Hreq in Hname. apply required_named in Hname.
  unfold has_named_kw_args in Hnone. unfold get_named_kw_args in Hname.
  apply list_elem_of_fmap in Hname as (p & _ & Hp).
  apply list_elem_of_filter in Hp as [Hk Hp].
  assert (existsb (fun p => kind_eqb (p_kind p) KEYWORD_ONLY) (parameters fn) = true)
    as Hex.
  { apply existsb_exists. exists p. split; [|exact Hk]. by apply list_elem_of_In. }
  congruence.
Qed.

Lemma body_not_read_witness :
  let fn := {| __name__ := "index";
               parameters := [ {| p_name := "request"; p_kind := POSITIONAL_OR_KEYWORD;
                                  p_default := None |} ];
               await_call := echo |} in
  let request := json_post (PList [PInt 1]) (PStr "42") in
  ∃ h, RequestHandler_.__init__ fn = Ok h
       ∧ invoked (__call__ no_query h request)
         = Some {[ "id" := KVal (PStr "42"); "request" := KRequest request ]}.
Proof.
  intros fn request.
  pose (h := {| _func := fn; _has_request_arg := true; _has_var_kw_arg := false;
                _has_named_kw_args := false; _named_kw_args := [];
                _required_kw_args := [] |}).
  assert (RequestHandler_.__init__ fn = Ok h) as H1 by reflexivity.
  assert (reads_parameters h = false) as H2 by reflexivity.
  exists h. split; [exact H1|].
  destruct (body_not_read no_query fn h request H1 H2) as [_ Hinv].
  rewrite Hinv. vm_compute. reflexivity.
Defined.

(** X14. A POST to a handler that reads parameters is refused with 400,
    the view function not being called: with an empty Content-Type ('Missing
    Content-Type.'), with a JSON Content-Type and a body that decodes to
    something other than an object ('JSON body must be object.'), and with a
    Content-Type that is neither JSON nor a form ('Unsupported Content-Type: '
    and the Content-Type as sent).  The Content-Type is compared in lower
    case.  An exception of [request.json()] goes to the caller. *)
Theorem post_refused parse_qs_items h request :
  reads_parameters h = true →
  method request = "POST" →
  let ct := lower (req_content_type request) in
  (req_content_type request = "" →
     __call__ parse_qs_items h request = refused "Missing Content-Type.")
  ∧ (req_content_type request ≠ "" → startswith ct "application/json" = true →
     (∀ v, json request = Ok v → (∀ d, v ≠ PDict d) →
        __call__ parse_qs_items h request = refused "JSON body must be object.")
     ∧ (∀ e, json request = Raise e →
        __call__ parse_qs_items h request = {| invoked := None; returned := Raise e |}))
  ∧ (req_content_type request ≠ "" →
     startswith ct "application/json" = false →
     startswith ct "application/x-www-form-urlencoded" = false →
     startswith ct "multipart/form-data" = false →
     __call__ parse_qs_items h request
     = refused ("Unsupported Content-Type: " +:+ req_content_type request)).
Proof.
  intros Hreads Hpost ct. subst ct. unfold reads_parameters in Hreads.
  unfold __call__, assemble, read_params, refused. rewrite Hreads, Hpost. simpl.
  split; [|split].
  - intros ->. reflexivity.
  - intros Hct Hjson. apply String.eqb_neq in Hct. rewrite Hct, Hjson. split.
    + intros v -> Hv. destruct v; try reflexivity. by destruct (Hv d).
    + intros e ->. reflexivity.
  - intros Hct H1 H2 H3. apply String.eqb_neq in Hct. rewrite Hct, H1, H2, H3.
    reflexivity.
Qed.

Lemma post_refused_witness :
  ∃ h,
    RequestHandler_.__init__ (view echo) = Ok h
    ∧ __call__ no_query h (json_post (PList [PInt 1]) (PStr "42"))
      = refused "JSON body must be object.".
Proof.
  pose (h := {| _func := view echo; _has_request_arg := true; _has_var_kw_arg := false;
                _has_named_kw_args := true; _named_kw_args := ["name"; "request"];
                _required_kw_args := ["name"; "request"] |}).
  pose (request := json_post (PList [PInt 1]) (PStr "42")).
  assert (reads_parameters h = true) as H1 by reflexivity.
  assert (method request = "POST") as H2 by reflexivity.
  destruct (post_refused no_query h request H1 H2) as (_ & Hjson & _).
  destruct Hjson as [Hobj _]; [discriminate | reflexivity |].
  exists h. split; [reflexivity|].
  apply (Hobj (PList [PInt 1])); [reflexivity | discriminate].
Defined.

(** X15. The whitelist never costs a required argument: for a registered
    handler, a keyword-only parameter without default that the body or the
    query string supplied is among the assembled arguments, so it is not the
    one a 'Missing argument' answer names. *)
Theorem supplied_argument_kept parse_qs_items fn h request params p v :
  RequestHandler_.__init__ fn = Ok h →
  read_params parse_qs_items h request = Continue (Some params) →
  p ∈ parameters fn →
  required p →
  params !! p_name p = Some v →
  ∃ kw,
    assemble parse_qs_items h request = Continue kw
    ∧ is_Some (kw !! p_name p)
    ∧ ∀ text, __call__ parse_qs_items h request = refused text →
        text ≠ "Missing argument: " +:+ p_name p.
Proof.
  intros Hinit Hread Hp Hreq Hv.
  destruct (init_fields fn h Hinit) as (Hnamed & Hrq & _ & _).
  rewrite (assemble_after_read _ _ _ _ Hread). eexists. split; [reflexivity|].
  assert (p_name p ∈ _named_kw_args h) as Hin.
  { rewrite Hnamed. apply required_named, elem_of_required. eauto. }
  match goal with
  | |- is_Some (?kw !! _) ∧ _ => assert (is_Some (kw !! p_name p)) as Hsome
  end.
  { assert (∀ kw0 : gmap string kwarg,
              is_Some (kw0 !! p_name p) →
              is_Some ((if _has_request_arg h then <["request" := KRequest request]> kw0
                        else kw0) !! p_name p)) as Hr.
    { intros kw0 H0. destruct (_has_request_arg h); [|done].
      destruct (decide ("request" = p_name p)) as [<-|Hne];
        [by rewrite lookup_insert_eq|by rewrite lookup_insert_ne]. }
    apply Hr. rewrite merge_match_info_lookup.
    destruct (match_info request !! p_name p); [by eauto|].
    destruct (negb (_has_var_kw_arg h) && _has_named_kw_args h); [|by eauto].
    rewrite keep_named_lookup, decide_True by done. by eauto. }
  split; [exact Hsome|].
  intros text Hcall Htext. subst text.
  unfold __call__, refused in Hcall.
  rewrite (assemble_after_read _ _ _ _ Hread) in Hcall.
  match type of Hcall with
  | context [first_missing ?names ?kw] =>
      destruct (first_missing names kw) as [name|] eqn:Hmiss
  end; [|done].
  unfold HTTPBadRequest in Hcall. injection Hcall as Hname.
  apply (String.app_inj "") in Hname. subst name.
  clear -Hmiss Hsome. revert Hmiss Hsome.
  match goal with
  | |- first_missing ?names ?kw = _ → _ => generalize kw; generalize names
  end.
  intros names kw. induction names as [|n names IH]; simpl; [done|].
  destruct (kw !! n) eqn:Hn; [exact IH|]. intros [= ->] [? ?]. congruence.
Qed.

Lemma supplied_argument_kept_witness :
  ∃ h kw,
    RequestHandler_.__init__ (view echo) = Ok h
    ∧ assemble no_query h
        (json_post (PDict {[ "name" := PStr "x"; "extra" := PStr "y" ]}) (PStr "42"))
      = Continue kw
    ∧ is_Some (kw !! "name").
Proof.
  pose (h := {| _func := view echo; _has_request_arg := true; _has_var_kw_arg := false;
                _has_named_kw_args := true; _named_kw_args := ["name"; "request"];
                _required_kw_args := ["name"; "request"] |}).
  pose (request := json_post (PDict {[ "name" := PStr "x"; "extra" := PStr "y" ]}) (PStr "42")).
  pose (p := {| p_name := "name"; p_kind := KEYWORD_ONLY; p_default := None |}).
  assert (RequestHandler_.__init__ (view echo) = Ok h) as H1 by reflexivity.
  assert (read_params no_query h request
          = Continue (Some (KVal <$> {[ "name" := PStr "x"; "extra" := PStr "y" ]}))) as H2
    by reflexivity.
  assert (p ∈ parameters (view echo)) as H3
    by (apply list_elem_of_further, list_elem_of_here).
  assert (required p) as H4 by (split; reflexivity).
  assert ((KVal <$> ({[ "name" := PStr "x"; "extra" := PStr "y" ]} : gmap string pyval))
            !! p_name p = Some (KVal (PStr "x"))) as H5 by (vm_compute; reflexivity).
  destruct (supplied_argument_kept no_query (view echo) h request _ p _ H1 H2 H3 H4 H5)
    as (kw & Hkw & Hsome & _).
  exists h, kw. auto.
Defined.

(** The query string: every name gets the first of its values. *)
Lemma take_first_values_spec (qitems : list (string * list string)) :
  NoDup qitems.*1 →
  Forall (fun kv => kv.2 ≠ []) qitems →
  ∀ acc : gmap string kwarg,
    ∃ kw,
      take_first_values qitems acc = Continue kw
      ∧ ∀ k, kw !! k
             = match (list_to_map qitems : gmap string (list string)) !! k with
               | Some vs => (fun v => KVal (PStr v)) <$> head vs
               | None => acc !! k
               end.
Proof.
  induction qitems as [|[k0 vs0] qitems IH]; intros Hnd Hne acc.
  - exists acc. split; [done|]. intros k. by rewrite list_to_map_nil, lookup_empty.
  - rewrite fmap_cons in Hnd. apply NoDup_cons in Hnd as [Hk0 Hnd].
    apply Forall_cons in Hne as [Hvs0 Hne]. simpl in Hvs0, Hk0.
    destruct vs0 as [|v0 vs0]; [done|].
    destruct (IH Hnd Hne (<[k0 := KVal (PStr v0)]> acc)) as (kw & Hrun & Hkw).
    exists kw. split; [exact Hrun|]. intros k. rewrite Hkw.
    change (list_to_map ((k0, v0 :: vs0) :: qitems))
      with (<[k0 := v0 :: vs0]> (list_to_map qitems : gmap string (list string))).
    destruct (decide (k0 = k)) as [<-|Hneq].
    + rewrite lookup_insert_eq.
      rewrite (not_elem_of_list_to_map_1 _ _ Hk0). by rewrite lookup_insert_eq.
    + rewrite !lookup_insert_ne by done. done.
Qed.

(** X16. A GET with a query string, to a handler that reads parameters:
    the body is not read, and the parameters are the names of the query
    string, each with the first of its values, as a string. *)
Theorem query_parameters parse_qs_items h request :
  reads_parameters h = true →
  method request = "GET" →
  query_string request ≠ "" →
  NoDup (parse_qs_items (query_string request)).*1 →
  Forall (fun kv => kv.2 ≠ []) (parse_qs_items (query_string request)) →
  ∃ kw,
    read_params parse_qs_items h request = Continue (Some kw)
    ∧ ∀ k, kw !! k
           = match (list_to_map (parse_qs_items (query_string request))
                      : gmap string (list string)) !! k with
             | Some vs => (fun v => KVal (PStr v)) <$> head vs
             | None => None
             end.
Proof.
  intros Hreads Hget Hqs Hnd Hne. unfold reads_parameters in Hreads.
  destruct (take_first_values_spec _ Hnd Hne ∅) as (kw & Hrun & Hkw).
  exists kw. split.
  - unfold read_params. rewrite Hreads, Hget. simpl.
    apply String.eqb_neq in Hqs. rewrite Hqs. simpl. by rewrite Hrun.
  - intros k. rewrite Hkw. by rewrite lookup_empty.
Qed.

Lemma query_parameters_witness :
  let parse := fun _ : string => [ ("page", ["2"; "3"]); ("tag", [""]) ] in
  let request :=
    {| method := "GET"; req_content_type := "application/octet-stream";
       json := Raise (ValueError (SLit "Expecting value")); Web.post := Ok ∅;
       query_string := "page=2&page=3&tag="; match_info := ∅; __user__ := PNone |} in
  ∃ h kw,
    RequestHandler_.__init__ (view echo) = Ok h
    ∧ read_params parse h request = Continue (Some kw)
    ∧ kw !! "page" = Some (KVal (PStr "2")).
Proof.
  intros parse request.
  pose (h := {| _func := view echo; _has_request_arg := true; _has_var_kw_arg := false;
                _has_named_kw_args := true; _named_kw_args := ["name"; "request"];
                _required_kw_args := ["name"; "request"] |}).
  assert (reads_parameters h = true) as H1 by reflexivity.
  assert (method request = "GET") as H2 by reflexivity.
  assert (query_string request ≠ "") as H3 by discriminate.
  assert (NoDup (parse (query_string request)).*1) as H4
    by (apply (bool_decide_unpack _); vm_compute; exact I).
  assert (Forall (fun kv => kv.2 ≠ []) (parse (query_string request))) as H5
    by (repeat constructor; discriminate).
  destruct (query_parameters parse h request H1 H2 H3 H4 H5) as (kw & Hread & Hkw).
  exists h, kw. split; [reflexivity|]. split; [exact Hread|].
  rewrite Hkw. vm_compute. reflexivity.
Defined.

(** *** Registration of the routes *)

Lemma omap_cons_match {A B} (f : A → option B) x (l : list A) :
  omap f (x :: l) = match f x with Some y => y :: omap f l | None => omap f l end.
Proof. reflexivity. Qed.

Lemma routable_test attr fn :
  routable (attr, Callable fn)
  = if startswith attr "_" then None
    else if truthy_str (__method__ fn) && truthy_str (__route__ fn)
         then Some (default "" (__method__ fn), default "" (__route__ fn), func fn)
         else None.
Proof.
  unfold routable, truthy_str. destruct (startswith attr "_"); [done|].
  destruct (__method__ fn) as [m|], (__route__ fn) as [p|]; simpl; try done.
  - by destruct (String.eqb m ""), (String.eqb p "").
  - by destruct (String.eqb m "").
Qed.

(** X17. [add_routes] goes through the names of the module in order and
    registers a handler for each public name bound to a callable that
    carries a method and a path, both non-empty, and for nothing else: names
    that begin with an underscore are passed over even when decorated.  It
    stops at the first function whose signature [has_request_arg] rejects,
    with that error, the earlier routes being registered. *)
Theorem add_routes_registers mod_ :
  ∀ router,
    match add_routes mod_ router with
    | (Ok _, router') =>
        ∃ routes,
          router' = router ++ routes
          ∧ route_summary <$> routes = omap routable mod_
          ∧ ∀ r, r ∈ routes →
              RequestHandler_.__init__ (_func (route_handler r)) = Ok (route_handler r)
    | (Raise e, router') =>
        ∃ pre entry post m p f routes,
          mod_ = pre ++ entry :: post
          ∧ routable entry = Some (m, p, f)
          ∧ has_request_arg f = Raise e
          ∧ router' = router ++ routes
          ∧ route_summary <$> routes = omap routable pre
    end.
Proof.
  induction mod_ as [|[attr obj] mod_ IH]; intros router.
  - simpl. exists []. split; [by rewrite app_nil_r|]. split; [done|].
    intros r Hr. by apply elem_of_nil in Hr.
  - assert (routable (attr, obj) = None →
            match add_routes mod_ router with
            | (Ok _, router') =>
                ∃ routes,
                  router' = router ++ routes
                  ∧ route_summary <$> routes = omap routable ((attr, obj) :: mod_)
                  ∧ ∀ r, r ∈ routes →
                      RequestHandler_.__init__ (_func (route_handler r)) = Ok (route_handler r)
            | (Raise e, router') =>
                ∃ pre entry post m p f routes,
                  (attr, obj) :: mod_ = pre ++ entry :: post
                  ∧ routable entry = Some (m, p, f)
                  ∧ has_request_arg f = Raise e
                  ∧ router' = router ++ routes
                  ∧ route_summary <$> routes = omap routable pre
            end) as Hskip.
    { intros Hnone. specialize (IH router).
      destruct (add_routes mod_ router) as [[[]|e] router'].
      - destruct IH as (routes & -> & Hsum & Hinit). exists routes.
        split; [done|]. split; [|done]. by rewrite omap_cons_match, Hnone.
      - destruct IH as (pre & entry & post & m & p & f & routes & -> & ? & ? & -> & Hsum).
        exists ((attr, obj) :: pre), entry, post, m, p, f, routes.
        split; [done|]. split; [done|]. split; [done|]. split; [done|].
        by rewrite omap_cons_match, Hnone. }
    cbn [add_routes]. destruct obj as [fn|v].
    + destruct (startswith attr "_") eqn:Hst;
        [apply Hskip; by rewrite routable_test, Hst|].
      destruct (truthy_str (__method__ fn) && truthy_str (__route__ fn)) eqn:Hboth;
        [|apply Hskip; by rewrite routable_test, Hst, Hboth].
      assert (routable (attr, Callable fn)
              = Some (default "" (__method__ fn), default "" (__route__ fn), func fn))
        as Htest by (by rewrite routable_test, Hst, Hboth).
      apply andb_true_iff in Hboth as [Hm Hp].
      destruct (__method__ fn) as [m|] eqn:Em; [|done].
      destruct (__route__ fn) as [p|] eqn:Ep; [|done].
      change (routable (attr, Callable fn) = Some (m, p, func fn)) in Htest.
      unfold bind, add_route. rewrite Em, Ep.
      unfold RequestHandler_.__init__.
      destruct (has_request_arg (func fn)) as [found|e] eqn:Hreq.
      * set (h := {| _func := func fn; _has_request_arg := found;
                     _has_var_kw_arg := has_var_kw_arg (func fn);
                     _has_named_kw_args := has_named_kw_args (func fn);
                     _named_kw_args := get_named_kw_args (func fn);
                     _required_kw_args := get_required_kw_args (func fn) |}).
        set (r0 := {| route_method := m; route_path := p; route_handler := h |}).
        specialize (IH (router ++ [r0])).
        destruct (add_routes mod_ (router ++ [r0])) as [[[]|e] router'].
        -- destruct IH as (routes & -> & Hsum & Hinit). exists (r0 :: routes).
           split; [by rewrite <- app_assoc|]. split.
           ++ by rewrite fmap_cons, Hsum, omap_cons_match, Htest.
           ++ intros r [->|Hr]%elem_of_cons; [|by apply Hinit].
              simpl. unfold RequestHandler_.__init__. by rewrite Hreq.
        -- destruct IH as (pre & entry & post & m' & p' & f & routes & -> & ? & ? & -> & Hsum).
           exists ((attr, Callable fn) :: pre), entry, post, m', p', f, (r0 :: routes).
           split; [done|]. split; [done|]. split; [done|].
           split; [by rewrite <- app_assoc|].
           by rewrite fmap_cons, Hsum, omap_cons_match, Htest.
      * exists [], (attr, Callable fn), mod_, m, p, (func fn), [].
        split; [done|]. split; [done|]. split; [done|].
        split; [by rewrite app_nil_r|done].
    + destruct (startswith attr "_"); by apply Hskip.
Qed.

(** A module with a decorated view, a decorated private helper and a
    constant: one route. *)
Example add_routes_sample :
  let fn := {| func := view echo; __method__ := None; __route__ := None |} in
  add_routes [ ("COOKIE_NAME", NotCallable (PStr "awesession"));
               ("_helper", Callable (Decorators.get "/helper" fn));
               ("api_blog", Callable (Decorators.post "/api/blogs/{id}" fn));
               ("next_id", Callable fn) ] []
  = (Ok tt,
     [ {| route_method := "POST"; route_path := "/api/blogs/{id}";
          route_handler :=
            {| _func := view echo; _has_request_arg := true; _has_var_kw_arg := false;
               _has_named_kw_args := true; _named_kw_args := ["name"; "request"];
               _required_kw_args := ["name"; "request"] |} |} ]).
Proof. reflexivity. Qed.

End CorowebMore.

(* ===================================================================== *)
(** ** Properties of www/app.py *)
(* ===================================================================== *)

Module AppProps.
Import Py Web Coroweb App WebVocabulary Samples.

(** The code's test on the first component is the test for an integer in
    [100, 600). *)
Lemma status_of_test v :
  status_of v
  = if isinstance_int v && status_in_range (int_value v) then Some (int_value v) else None.
Proof.
  unfold status_of, status_in_range.
  destruct v as [|[]|z| | | | | | | |]; simpl; try reflexivity.
  destruct (decide (100 ≤ z < 600)) as [[H1 H2]|Hn].
  - apply Z.leb_le in H1. apply Z.ltb_lt in H2. by rewrite H1, H2.
  - destruct (Z.leb_spec 100 z), (Z.ltb_spec z 600); simpl; try reflexivity. lia.
Qed.

(** A tuple is none of the earlier cases of the coercion. *)
Lemma coerce_tuple lib request xs :
  coerce lib request (RValue (PTuple xs))
  = Ok match xs with
       | [status_code; message] =>
           match status_of status_code with
           | Some z => Response_status_text z (SStr message)
           | None => plain (PTuple xs)
           end
       | _ => plain (PTuple xs)
       end.
Proof.
  destruct xs as [|s [|m [|? ?]]]; try reflexivity.
  rewrite status_of_test. unfold coerce. simpl.
  by destruct (isinstance_int s && status_in_range (int_value s)).
Qed.

(** C6, as the code has it. When the handler returns a two-element tuple
    whose first element is an integer in [100, 600), the response is a status
    response with that status and the text of the second element; when the
    first element is anything else, the tuple goes to the default case, a
    plain-text response of its textual representation; and so does every
    list, whatever its length and elements. *)
Theorem response_of_pair lib handler request r :
  handler request = Ok (RValue r) →
  (∀ status_code message, r = PTuple [status_code; message] →
     response_factory lib handler request
     = Ok match status_of status_code with
          | Some z => Response_status_text z (SStr message)
          | None => plain r
          end)
  ∧ (∀ xs, r = PList xs → response_factory lib handler request = Ok (plain r)).
Proof.
  intros Hr. unfold response_factory, response. rewrite Hr. split.
  - intros s m ->. by rewrite coerce_tuple.
  - intros xs ->. reflexivity.
Qed.

Lemma response_of_pair_witness :
  response_factory sample_library
    (fun _ => Ok (RValue (PTuple [PInt 404; PStr "Not Found"]))) plain_get
  = Ok (Response_status_text 404 (SStr (PStr "Not Found"))).
Proof.
  refine (proj1 (response_of_pair sample_library
                   (fun _ => Ok (RValue (PTuple [PInt 404; PStr "Not Found"])))
                   plain_get (PTuple [PInt 404; PStr "Not Found"]) eq_refl)
            (PInt 404) (PStr "Not Found") eq_refl).
Defined.

(** C6, as stated, fails for a two-element list: [[404, 'Not Found']] is
    answered with the default plain-text response, not with a 404 status
    response carrying 'Not Found'. *)
Lemma list_pair_counterexample :
  response_factory sample_library
    (fun _ => Ok (RValue (PList [PInt 404; PStr "Not Found"]))) plain_get
  = Ok (plain (PList [PInt 404; PStr "Not Found"]))
  ∧ response_factory sample_library
      (fun _ => Ok (RValue (PList [PInt 404; PStr "Not Found"]))) plain_get
    ≠ Ok (Response_status_text 404 (SStr (PStr "Not Found"))).
Proof. split; [reflexivity|discriminate]. Qed.

(** The other cases of the coercion, run on samples. *)
Example coerce_redirect :
  coerce sample_library plain_get (RValue (PStr "redirect:/signin"))
  = Ok (HTTPFound "/signin").
Proof. reflexivity. Qed.

Example coerce_redirect_nowhere :
  coerce sample_library plain_get (RValue (PStr "redirect:"))
  = Raise (ValueError (SLit "HTTP redirects need a location to redirect to.")).
Proof. reflexivity. Qed.

Example coerce_status :
  coerce sample_library plain_get (RValue (PInt 204)) = Ok (Response_status 204).
Proof. reflexivity. Qed.

Example coerce_template :
  coerce sample_library plain_get
    (RValue (PDict {[ "__template__" := PStr "t.html"; "title" := PStr "hi" ]}))
  = Ok (set_content_type "text/html;charset=utf-8"
          (Response_body (Utf8 (SCat (SLit "rendering of ") (SStr (PStr "t.html")))))).
Proof. vm_compute. reflexivity. Qed.

Example coerce_bool :
  coerce sample_library plain_get (RValue (PBool true)) = Ok (plain (PBool true)).
Proof. reflexivity. Qed.

End AppProps.

(* ===================================================================== *)
(** ** More on www/app.py *)
(* ===================================================================== *)

Module AppMore.
Import Py Web Coroweb App WebVocabulary Samples.
Import App.Middleware.

(** *** Response coercion *)






(** *** The middlewares *)

(** [auth_factory], with the request it hands on written out. *)
Lemma auth_factory_eq cookie2user handler inc :
  auth_factory cookie2user handler inc
  = match (if truthy_str (session inc) then cookie2user (default "" (session inc))
           else Ok None) with
    | Raise e => Raise e
    | Ok who =>
        if startswith (path inc) "/manage/"
           && match bound_user who with
              | Some u => negb (truthy (admin u))
              | None => true
              end
        then Ok (RResponse (HTTPFound "/signin"))
        else handler (set_user (from_option user PNone (bound_user who)) inc)
    end.
Proof.
  unfold auth_factory. cbn [set_user session path].
  destruct (if truthy_str (session inc) then cookie2user (default "" (session inc))
            else Ok None) as [who|e]; [|reflexivity].
  destruct (bound_user who); reflexivity.
Qed.

(** X21. The gate of the administrative pages.  For a path that begins
    with '/manage/': without session cookie (or with an empty one), with a
    cookie [cookie2user] finds no user for, and with a user that is falsy or
    whose [admin] is falsy, the answer is a redirect to '/signin' whatever the
    next handler is, which is therefore not called; with a user whose [admin]
    is true the next handler is called, with that user as [__user__]. *)
Theorem admin_gate cookie2user handler inc :
  startswith (path inc) "/manage/" = true →
  (truthy_str (session inc) = false →
     auth_factory cookie2user handler inc = Ok (RResponse (HTTPFound "/signin")))
  ∧ (∀ cookie, session inc = Some cookie → cookie ≠ "" →
       (cookie2user cookie = Ok None →
          auth_factory cookie2user handler inc = Ok (RResponse (HTTPFound "/signin")))
       ∧ (∀ u, cookie2user cookie = Ok (Some u) →
            auth_factory cookie2user handler inc
            = if truthy (user u) && truthy (admin u)
              then handler (set_user (user u) inc)
              else Ok (RResponse (HTTPFound "/signin")))
       ∧ (∀ e, cookie2user cookie = Raise e →
            auth_factory cookie2user handler inc = Raise e)).
Proof.
  intros Hpath. rewrite auth_factory_eq, Hpath. split.
  - intros ->. reflexivity.
  - intros cookie Hs Hne. rewrite Hs.
    assert (truthy_str (Some cookie) = true) as ->.
    { unfold truthy_str. apply String.eqb_neq in Hne. by rewrite Hne. }
    cbn [default from_option id]. split; [|split].
    + intros ->. reflexivity.
    + intros u ->. unfold bound_user.
      destruct (truthy (user u)); [|reflexivity].
      cbn [andb from_option]. by destruct (truthy (admin u)).
    + by intros e ->.
Qed.

Lemma admin_gate_witness :
  let inc := {| request := plain_get; path := "/manage/blogs"; session := Some "abc";
                __data__ := None |} in
  let visitor := fun _ : string => Ok (Some {| user := PObj "User"; admin := PBool false |}) in
  auth_factory visitor (fun _ => Ok (RValue (PStr "the page"))) inc
  = Ok (RResponse (HTTPFound "/signin")).
Proof.
  intros inc visitor.
  destruct (admin_gate visitor (fun _ => Ok (RValue (PStr "the page"))) inc eq_refl)
    as [_ Hcookie].
  destruct (Hcookie "abc" eq_refl) as (_ & Huser & _); [discriminate|].
  exact (Huser {| user := PObj "User"; admin := PBool false |} eq_refl).
Defined.

(** X22. Outside the administrative pages nobody is turned away: the next
    handler is called unless [cookie2user] raises, and the [__user__] it sees
    is the object [cookie2user] answered when that is truthy, and [None]
    otherwise; it is never the [__user__] the request came with.  The rest of
    the request is as it came. *)
Theorem auth_binds_user cookie2user handler inc :
  startswith (path inc) "/manage/" = false →
  let found :=
    if truthy_str (session inc) then cookie2user (default "" (session inc)) else Ok None in
  match found with
  | Raise e => auth_factory cookie2user handler inc = Raise e
  | Ok who =>
      let bound :=
        match who with
        | Some u => if truthy (user u) then user u else PNone
        | None => PNone
        end in
      ∃ inc',
        auth_factory cookie2user handler inc = handler inc'
        ∧ __user__ (request inc') = bound
        ∧ inc' = set_user bound inc
  end.
Proof.
  intros Hpath found. subst found. rewrite auth_factory_eq, Hpath.
  destruct (if truthy_str (session inc) then cookie2user (default "" (session inc))
            else Ok None) as [who|e]; [|done].
  cbn beta iota zeta delta [andb].
  assert (from_option user PNone (bound_user who)
          = match who with
            | Some u => if truthy (user u) then user u else PNone
            | None => PNone
            end) as ->.
  { unfold bound_user. destruct who as [u|]; [|done].
    by destruct (truthy (user u)). }
  eexists. split; [reflexivity|]. split; [|done]. reflexivity.
Qed.

Lemma auth_binds_user_witness :
  let inc := {| request := json_post (PDict ∅) (PStr "1"); path := "/api/blogs";
                session := None; __data__ := None |} in
  ∃ inc',
    auth_factory (fun _ => Ok None) (fun i => Ok (RValue (__user__ (request i)))) inc
    = Ok (RValue (__user__ (request inc')))
    ∧ __user__ (request inc') = PNone.
Proof.
  intros inc.
  destruct (auth_binds_user (fun _ => Ok None)
              (fun i => Ok (RValue (__user__ (request i)))) inc eq_refl)
    as (inc' & Hrun & Huser & _).
  exists inc'. split; [exact Hrun|exact Huser].
Defined.

(** X23. The whole chain of middlewares.  What it returns is a response
    object, whatever the routed handler returned.  The gate comes before the
    body is read: a request to an administrative page without session cookie
    is redirected even when it is a POST whose JSON body does not parse.  And
    the body is read before the routed handler is reached: past the gate, a
    JSON POST whose body does not parse raises that error, whatever the
    handler is. *)
Theorem middleware_order lib cookie2user handler inc :
  (∀ r, middlewares lib cookie2user handler inc = Ok r → ∃ resp, r = RResponse resp)
  ∧ (startswith (path inc) "/manage/" = true → truthy_str (session inc) = false →
     middlewares lib cookie2user handler inc = Ok (RResponse (HTTPFound "/signin")))
  ∧ (∀ e, startswith (path inc) "/manage/" = false → truthy_str (session inc) = false →
     method (request inc) = "POST" →
     startswith (req_content_type (request inc)) "application/json" = true →
     json (request inc) = Raise e →
     middlewares lib cookie2user handler inc = Raise e).
Proof.
  unfold middlewares, logger_factory. split; [|split].
  - intros r. rewrite auth_factory_eq.
    destruct (if truthy_str (session inc) then cookie2user (default "" (session inc))
              else Ok None) as [who|e]; [|done].
    match goal with
    | |- (if ?c then _ else _) = _ → _ => destruct c
    end; [intros [= <-]; eauto|].
    unfold data_factory, response_factory, response.
    repeat case_match; intros; simplify_eq; eauto.
  - intros Hpath Hs. rewrite auth_factory_eq, Hs, Hpath. reflexivity.
  - intros e Hpath Hs Hpost Hct Hjson.
    rewrite auth_factory_eq, Hs, Hpath. cbn [andb from_option].
    unfold data_factory. cbn [set_user request method req_content_type json].
    by rewrite Hpost, Hct, Hjson.
Qed.

(** *** datetime_filter *)

(** X24. The age a timestamp is shown with: under a minute, and for a
    timestamp in the future, it is '1 minute ago'; from a minute up to an
    hour the whole minutes, between 1 and 59; up to a day the whole hours,
    between 1 and 23; up to a week the whole days, between 1 and 6; from a
    week on the date is shown. *)
Theorem datetime_filter_units delta dt :
  (delta < 60 → datetime_filter delta dt = SLit "1分钟前")
  ∧ (60 ≤ delta < 3600 →
     ∃ n, datetime_filter delta dt = SCat (SStr (PInt n)) (SLit "分钟前")
          ∧ 1 ≤ n ≤ 59 ∧ 60 * n ≤ delta < 60 * (n + 1))
  ∧ (3600 ≤ delta < 86400 →
     ∃ n, datetime_filter delta dt = SCat (SStr (PInt n)) (SLit "小时前")
          ∧ 1 ≤ n ≤ 23 ∧ 3600 * n ≤ delta < 3600 * (n + 1))
  ∧ (86400 ≤ delta < 604800 →
     ∃ n, datetime_filter delta dt = SCat (SStr (PInt n)) (SLit "天前")
          ∧ 1 ≤ n ≤ 6 ∧ 86400 * n ≤ delta < 86400 * (n + 1))
  ∧ (604800 ≤ delta →
     datetime_filter delta dt
     = SCat (SStr (PInt dt.1.1))
         (SCat (SLit "年") (SCat (SStr (PInt dt.1.2))
            (SCat (SLit "月") (SCat (SStr (PInt dt.2)) (SLit "日")))))).
Proof.
  unfold datetime_filter.
  assert (∀ d, 0 < d → d * (delta / d) ≤ delta < d * (delta / d + 1)) as Hdiv.
  { intros d Hd. pose proof (Z.mul_div_le delta d Hd).
    pose proof (Z.mul_succ_div_gt delta d Hd). lia. }
  repeat split.
  - intros H. by destruct (Z.ltb_spec delta 60); [|lia].
  - intros [H1 H2].
    destruct (Z.ltb_spec delta 60); [lia|]. destruct (Z.ltb_spec delta 3600); [|lia].
    eexists. split; [reflexivity|]. pose proof (Hdiv 60). nia.
  - intros [H1 H2].
    destruct (Z.ltb_spec delta 60); [lia|]. destruct (Z.ltb_spec delta 3600); [lia|].
    destruct (Z.ltb_spec delta 86400); [|lia].
    eexists. split; [reflexivity|]. pose proof (Hdiv 3600). nia.
  - intros [H1 H2].
    destruct (Z.ltb_spec delta 60); [lia|]. destruct (Z.ltb_spec delta 3600); [lia|].
    destruct (Z.ltb_spec delta 86400); [lia|]. destruct (Z.ltb_spec delta 604800); [|lia].
    eexists. split; [reflexivity|]. pose proof (Hdiv 86400). nia.
  - intros H.
    destruct (Z.ltb_spec delta 60); [lia|]. destruct (Z.ltb_spec delta 3600); [lia|].
    destruct (Z.ltb_spec delta 86400); [lia|]. destruct (Z.ltb_spec delta 604800); [lia|].
    by destruct dt as [[y m] d].
Qed.

End AppMore.
